(** * The poster-revision workflow of AI Edit

  A shallow embedding of the state logic of [src/App.tsx], of the
  refinement chooser of [PosterDisplay], of the gallery of
  [PosterGallery] and of the result handling of
  [src/services/geminiService.ts].

  React state is an explicit record ([AppState]); every [setX] of the
  source is a setter on that record; an [async] handler is split at its
  [await] into the part that runs on the click and the continuation that
  runs when the awaited promise settles.  What the browser and the remote
  model answer (the reply of [generateContent], the clock, the canvas) is
  an input of the continuation. *)

From Stdlib Require Import String Ascii List Bool NArith ZArith QArith Lia.
From Stdlib Require Import DecimalString DecimalN.
Import ListNotations.
Local Close Scope Q_scope.
Local Open Scope string_scope.
Local Open Scope list_scope.

Set Implicit Arguments.

(** ** JavaScript values used by the handlers *)

Module Js.

(** A thrown value.  [message] is [None] for a value that is not an
    [Error] (the [ProgressEvent] a [FileReader] rejects with). *)
Record Thrown := Error' { message : option string }.

Definition Error (msg : string) : Thrown := Error' (Some msg).

(** A settled promise. *)
Inductive Settled (A : Type) : Type :=
| Fulfilled : A -> Settled A
| Rejected : Thrown -> Settled A.
Arguments Fulfilled {A} _.
Arguments Rejected {A} _.

Definition bind {A B} (p : Settled A) (k : A -> Settled B) : Settled B :=
  match p with
  | Fulfilled a => k a
  | Rejected e => Rejected e
  end.

(** [try { body } catch (error) { throw new Error(msg) }] *)
Definition catch_rethrow {A} (body : Settled A) (msg : string) : Settled A :=
  match body with
  | Fulfilled a => Fulfilled a
  | Rejected _ => Rejected (Error msg)
  end.

(** [Promise.all([a, b])]: fulfilled with both values, rejected as soon
    as one of the two is.  When both are rejected the reason kept here is
    the first one's; the only caller replaces the reason anyway. *)
Definition all2 {A} (a b : Settled A) : Settled (A * A) :=
  match a, b with
  | Fulfilled x, Fulfilled y => Fulfilled (x, y)
  | Rejected e, _ => Rejected e
  | Fulfilled _, Rejected e => Rejected e
  end.

(** Truthiness of a string: only the empty string is falsy. *)
Definition truthy (s : string) : bool :=
  match s with
  | EmptyString => false
  | String _ _ => true
  end.

(** Truthiness of [string | null]. *)
Definition truthy_opt (s : option string) : bool :=
  match s with
  | Some s => truthy s
  | None => false
  end.

(** [err.message || fallback] *)
Definition message_or (e : Thrown) (fallback : string) : string :=
  match message e with
  | Some m => if truthy m then m else fallback
  | None => fallback
  end.

(** [s.split(sep)] for a one-character separator. *)
Fixpoint split (sep : ascii) (s : string) : list string :=
  match s with
  | EmptyString => [EmptyString]
  | String c rest =>
      if Ascii.eqb c sep then EmptyString :: split sep rest
      else match split sep rest with
           | [] => [String c EmptyString]
           | hd :: tl => String c hd :: tl
           end
  end.

(** [s.split(',')[1]]; [None] is [undefined]. *)
Definition after_comma (s : string) : option string :=
  nth_error (split "," s) 1.

(** A number rendered by a template literal. *)
Definition show (n : N) : string := NilEmpty.string_of_uint (N.to_uint n).

(** [a === b] on [string | null]. *)
Definition same_id (a b : option string) : bool :=
  match a, b with
  | Some x, Some y => String.eqb x y
  | None, None => true
  | _, _ => false
  end.

End Js.

Import Js.

(** ** [types.ts] *)

Inductive AspectRatio := AR_9_16 | AR_1_1 | AR_16_9 | AR_3_4 | AR_4_3.
Inductive ExpandDirection := DirAll | DirTop | DirBottom | DirLeft | DirRight.
Inductive ExpandSize := Size25 | Size50 | Size100.
Inductive UpscaleFactor := Scale2 | Scale4.

Record Product := {
  product_id : string;
  original : string;
  originalMimeType : string;
  processed : option string;
  isProcessing : bool
}.

Record Poster := {
  id : string;
  src : string;
  prompt : string
}.

Record Tint := {
  color : string;
  amount : Q
}.

Record ImageFilters := {
  brightness : Z;
  contrast : Z;
  saturate : Z;
  tint : option Tint
}.

Definition show_direction (d : ExpandDirection) : string :=
  match d with
  | DirAll => "all" | DirTop => "top" | DirBottom => "bottom"
  | DirLeft => "left" | DirRight => "right"
  end.

Definition size_value (s : ExpandSize) : N :=
  match s with Size25 => 25 | Size50 => 50 | Size100 => 100 end%N.

Definition scale_value (s : UpscaleFactor) : N :=
  match s with Scale2 => 2 | Scale4 => 4 end%N.

(** ** [services/geminiService.ts]

  The reply of [ai.models.generateContent] is an input: a response, or a
  rejection (transport, quota, content policy).  The prompt texts sent to
  the model are not part of the model. *)

Module Gemini.

Record Blob := { data : string; mimeType : string }.
Record Part := { text : option string; inlineData : option Blob }.
Record Content := { parts : option (list Part) }.
Record Candidate := { content : option Content }.
Record GenerateContentResponse := { candidates : option (list Candidate) }.

Definition Reply := Settled GenerateContentResponse.

(** [response.candidates?.[0]?.content?.parts || []] *)
Definition response_parts (r : GenerateContentResponse) : list Part :=
  match candidates r with
  | Some (c :: _) =>
      match content c with
      | Some ct => match parts ct with Some ps => ps | None => [] end
      | None => []
      end
  | _ => []
  end.

(** [for (const part of ...) { if (part.inlineData) return part.inlineData.data; }] *)
Fixpoint first_inline_data (ps : list Part) : option string :=
  match ps with
  | [] => None
  | p :: rest =>
      match inlineData p with
      | Some b => Some (data b)
      | None => first_inline_data rest
      end
  end.

(** The common body: the first inline image, or [throw new Error(none)]. *)
Definition image_or_throw (reply : Reply) (none : string) : Settled string :=
  bind reply (fun r =>
    match first_inline_data (response_parts r) with
    | Some d => Fulfilled d
    | None => Rejected (Error none)
    end).

Definition removeBackground (reply : Reply) : Settled string :=
  catch_rethrow
    (image_or_throw reply "No image was returned from the background removal process.")
    "Failed to remove background from the image.".

Definition generatePoster (reply : Reply) : Settled string :=
  catch_rethrow
    (image_or_throw reply "No poster was generated.")
    "Failed to generate the poster.".

(** [generateVariation]: [null] when the response holds no image; a
    rejection of [generateContent] is not caught here. *)
Definition generateVariation (reply : Reply) : Settled (option string) :=
  bind reply (fun r => Fulfilled (first_inline_data (response_parts r))).

(** [[variation1, variation2].filter(v => v !== null)] *)
Definition non_null (vs : list (option string)) : list string :=
  flat_map (fun v => match v with Some s => [s] | None => [] end) vs.

Definition refinePoster (reply1 reply2 : Reply) : Settled (list string) :=
  catch_rethrow
    (bind (all2 (generateVariation reply1) (generateVariation reply2))
       (fun vs =>
          let results := non_null [fst vs; snd vs] in
          if (length results =? 0)%nat
          then Rejected (Error "No refined poster was generated.")
          else Fulfilled results))
    "Failed to refine the poster.".

(** [catch (error) { throw error; }] rethrows what it caught. *)
Definition performImageModification (reply : Reply) : Settled string :=
  image_or_throw reply "No modified image was generated.".

Definition upscalePoster (scale : UpscaleFactor) (reply : Reply) : Settled string :=
  catch_rethrow (performImageModification reply)
    ("Failed to upscale the poster " ++ show (scale_value scale) ++ "x.").

Definition expandPoster (reply : Reply) : Settled string :=
  catch_rethrow (performImageModification reply) "Failed to expand the poster.".

End Gemini.


(** ** [App.tsx]: the state *)

Record LoadingFlags := { generating : bool; modifying : bool }.

Record Modal := { isOpen : bool; modal_src : option string }.

Record AppState := {
  products : list Product;
  posters : list Poster;
  activePosterId : option string;
  aspectRatio : AspectRatio;
  isLoading : LoadingFlags;
  error : option string;
  refinementVariations : list Poster;
  pendingFilters : ImageFilters;
  previewModal : Modal;
  posterCropModal : Modal
}.

Definition DEFAULT_FILTERS : ImageFilters :=
  {| brightness := 100; contrast := 100; saturate := 100; tint := None |}.

(** The values [useState] starts from. *)
Definition initialState : AppState :=
  {| products := [];
     posters := [];
     activePosterId := None;
     aspectRatio := AR_9_16;
     isLoading := {| generating := false; modifying := false |};
     error := None;
     refinementVariations := [];
     pendingFilters := DEFAULT_FILTERS;
     previewModal := {| isOpen := false; modal_src := None |};
     posterCropModal := {| isOpen := false; modal_src := None |} |}.

(** The setters.  [setPosters] and [setIsLoading] take an updater, as the
    source calls them with one. *)

Definition setPosters (f : list Poster -> list Poster) (st : AppState) : AppState :=
  {| products := products st; posters := f (posters st);
     activePosterId := activePosterId st; aspectRatio := aspectRatio st;
     isLoading := isLoading st; error := error st;
     refinementVariations := refinementVariations st;
     pendingFilters := pendingFilters st; previewModal := previewModal st;
     posterCropModal := posterCropModal st |}.

Definition setActivePosterId (v : option string) (st : AppState) : AppState :=
  {| products := products st; posters := posters st;
     activePosterId := v; aspectRatio := aspectRatio st;
     isLoading := isLoading st; error := error st;
     refinementVariations := refinementVariations st;
     pendingFilters := pendingFilters st; previewModal := previewModal st;
     posterCropModal := posterCropModal st |}.

Definition setAspectRatio (v : AspectRatio) (st : AppState) : AppState :=
  {| products := products st; posters := posters st;
     activePosterId := activePosterId st; aspectRatio := v;
     isLoading := isLoading st; error := error st;
     refinementVariations := refinementVariations st;
     pendingFilters := pendingFilters st; previewModal := previewModal st;
     posterCropModal := posterCropModal st |}.

Definition setIsLoading (f : LoadingFlags -> LoadingFlags) (st : AppState) : AppState :=
  {| products := products st; posters := posters st;
     activePosterId := activePosterId st; aspectRatio := aspectRatio st;
     isLoading := f (isLoading st); error := error st;
     refinementVariations := refinementVariations st;
     pendingFilters := pendingFilters st; previewModal := previewModal st;
     posterCropModal := posterCropModal st |}.

Definition setError (v : option string) (st : AppState) : AppState :=
  {| products := products st; posters := posters st;
     activePosterId := activePosterId st; aspectRatio := aspectRatio st;
     isLoading := isLoading st; error := v;
     refinementVariations := refinementVariations st;
     pendingFilters := pendingFilters st; previewModal := previewModal st;
     posterCropModal := posterCropModal st |}.

Definition setRefinementVariations (v : list Poster) (st : AppState) : AppState :=
  {| products := products st; posters := posters st;
     activePosterId := activePosterId st; aspectRatio := aspectRatio st;
     isLoading := isLoading st; error := error st;
     refinementVariations := v;
     pendingFilters := pendingFilters st; previewModal := previewModal st;
     posterCropModal := posterCropModal st |}.

Definition setPendingFilters (v : ImageFilters) (st : AppState) : AppState :=
  {| products := products st; posters := posters st;
     activePosterId := activePosterId st; aspectRatio := aspectRatio st;
     isLoading := isLoading st; error := error st;
     refinementVariations := refinementVariations st;
     pendingFilters := v; previewModal := previewModal st;
     posterCropModal := posterCropModal st |}.

Definition setPreviewModal (v : Modal) (st : AppState) : AppState :=
  {| products := products st; posters := posters st;
     activePosterId := activePosterId st; aspectRatio := aspectRatio st;
     isLoading := isLoading st; error := error st;
     refinementVariations := refinementVariations st;
     pendingFilters := pendingFilters st; previewModal := v;
     posterCropModal := posterCropModal st |}.

Definition setPosterCropModal (v : Modal) (st : AppState) : AppState :=
  {| products := products st; posters := posters st;
     activePosterId := activePosterId st; aspectRatio := aspectRatio st;
     isLoading := isLoading st; error := error st;
     refinementVariations := refinementVariations st;
     pendingFilters := pendingFilters st; previewModal := previewModal st;
     posterCropModal := v |}.

(** [prev => [newPoster, ...prev.slice(0, 1)]], the updater every producing
    action hands to [setPosters] ("Keep history to 2"). *)
Definition push (newPoster : Poster) (prev : list Poster) : list Poster :=
  newPoster :: firstn 1 prev.

(** [posters.find(p => p.id === activePosterId)] *)
Definition find_poster (target : option string) (ps : list Poster) : option Poster :=
  find (fun p => same_id (Some (id p)) target) ps.

(** [posters.find(p => p.id === activePosterId) || posters[0] || null]
    (line 535): the poster handed to the display. *)
Definition activePoster (st : AppState) : option Poster :=
  match find_poster (activePosterId st) (posters st) with
  | Some p => Some p
  | None =>
      match nth_error (posters st) 0 with
      | Some p => Some p
      | None => None
      end
  end.

(** What a handler hands to the image service client. *)

Record EncodedImage := { base64 : option string; image_mimeType : string }.

Inductive ServiceCall :=
| CallGeneratePoster (productData : list EncodedImage) (concept : string)
    (ratio : AspectRatio) (referenceImage : option EncodedImage) (posterText : string)
| CallRefinePoster (currentPoster : EncodedImage) (refinementPrompt : string)
| CallUpscalePoster (currentPoster : EncodedImage) (scale : UpscaleFactor)
| CallExpandPoster (currentPoster : EncodedImage) (direction : ExpandDirection)
    (size : ExpandSize).

(** ** [App.tsx]: the handlers *)

(** *** [handleGenerate] (lines 325-365) *)

(** What the closure holds while the handler is suspended at its [await]:
    [processedProducts] and the arguments, with the [aspectRatio] and
    [previewModal.isOpen] of the render it was created in. *)
Record GeneratePending := {
  gen_products : list Product;
  gen_concept : string;
  gen_aspectRatio : AspectRatio;
  gen_hasReference : bool;
  gen_posterText : string;
  gen_previewOpen : bool
}.

(** Lines 326-333.  [hasReference] tells whether [referenceImageFile] is a
    file or [null].  [None] is the early [return]. *)
Definition handleGenerate_begin (concept : string) (hasReference : bool)
    (posterText : string) (st : AppState) : AppState * option GeneratePending :=
  let processedProducts := filter (fun p => truthy_opt (processed p)) (products st) in
  if (length processedProducts =? 0)%nat then
    (setError (Some "Please upload and process at least one product image.") st, None)
  else
    (setError None
       (setIsLoading (fun _ => {| generating := true; modifying := false |}) st),
     Some {| gen_products := processedProducts;
             gen_concept := concept;
             gen_aspectRatio := aspectRatio st;
             gen_hasReference := hasReference;
             gen_posterText := posterText;
             gen_previewOpen := isOpen (previewModal st) |}).

(** Lines 341-344. *)
Definition productData (ps : list Product) : list EncodedImage :=
  map (fun p =>
         {| base64 := match processed p with
                      | Some s => after_comma s
                      | None => None
                      end;
            image_mimeType := "image/png" |}) ps.

(** Lines 336-339: the reference image, read only when a file was given;
    [refRead] is what [getBase64AndMimeType] settles to. *)
Definition read_reference (p : GeneratePending) (refRead : Settled EncodedImage)
    : Settled (option EncodedImage) :=
  if gen_hasReference p then bind refRead (fun r => Fulfilled (Some r))
  else Fulfilled None.

(** The call of line 346, reached only when the reference was read. *)
Definition handleGenerate_calls (p : GeneratePending) (refRead : Settled EncodedImage)
    : list ServiceCall :=
  match read_reference p refRead with
  | Fulfilled referenceImage =>
      [CallGeneratePoster (productData (gen_products p)) (gen_concept p)
         (gen_aspectRatio p) referenceImage (gen_posterText p)]
  | Rejected _ => []
  end.

(** Lines 335-351, the [try] block up to [newPoster]. *)
Definition handleGenerate_try (p : GeneratePending) (refRead : Settled EncodedImage)
    (reply : Gemini.Reply) (now : N) : Settled Poster :=
  bind (read_reference p refRead) (fun _ =>
  bind (Gemini.generatePoster reply) (fun posterBase64 =>
  Fulfilled {| id := "poster-" ++ show now;
               src := "data:image/jpeg;base64," ++ posterBase64;
               prompt := gen_concept p |})).

(** Lines 352-364: the rest of [try], [catch] and [finally]. *)
Definition handleGenerate_settled (p : GeneratePending) (refRead : Settled EncodedImage)
    (reply : Gemini.Reply) (now : N) (st : AppState) : AppState :=
  let st1 :=
    match handleGenerate_try p refRead reply now with
    | Fulfilled newPoster =>
        let st2 := setActivePosterId (Some (id newPoster))
                     (setPosters (push newPoster) st) in
        if gen_previewOpen p
        then setPreviewModal {| isOpen := true; modal_src := Some (src newPoster) |} st2
        else st2
    | Rejected err =>
        setError (Some (message_or err "Failed to generate poster. Please try again.")) st
    end in
  setIsLoading (fun _ => {| generating := false; modifying := false |}) st1.

(** *** [handleRefine] (lines 367-391) *)

Record RefinePending := {
  refine_poster : Poster;
  refine_prompt : string
}.

(** Lines 368-373. *)
Definition handleRefine_begin (refinementPrompt : string) (st : AppState)
    : AppState * option RefinePending :=
  match find_poster (activePosterId st) (posters st) with
  | None => (st, None)
  | Some active =>
      (setRefinementVariations []
         (setError None
            (setIsLoading (fun prev => {| generating := generating prev;
                                          modifying := true |}) st)),
       Some {| refine_poster := active; refine_prompt := refinementPrompt |})
  end.

(** Lines 376-377. *)
Definition handleRefine_calls (p : RefinePending) : list ServiceCall :=
  [CallRefinePoster {| base64 := after_comma (src (refine_poster p));
                       image_mimeType := "image/jpeg" |}
     (refine_prompt p)].

(** [xs.map((base64, index) => ...)] of lines 379-383, from [index]. *)
Fixpoint variations_from (index : nat) (clock : nat -> N) (refinementPrompt : string)
    (base64s : list string) : list Poster :=
  match base64s with
  | [] => []
  | b :: rest =>
      {| id := "poster-variation-" ++ show (clock index) ++ "-" ++ show (N.of_nat index);
         src := "data:image/jpeg;base64," ++ b;
         prompt := refinementPrompt |}
      :: variations_from (S index) clock refinementPrompt rest
  end.

(** Lines 375-390.  [reply1] and [reply2] are the replies to the two
    [generateContent] requests of [refinePoster]; [clock index] is what
    [Date.now()] reads while candidate [index] is built. *)
Definition handleRefine_settled (p : RefinePending) (reply1 reply2 : Gemini.Reply)
    (clock : nat -> N) (st : AppState) : AppState :=
  let st1 :=
    match Gemini.refinePoster reply1 reply2 with
    | Fulfilled refinedPosterBase64s =>
        setRefinementVariations
          (variations_from 0 clock (refine_prompt p) refinedPosterBase64s) st
    | Rejected err =>
        setError (Some (message_or err "Failed to refine poster. Please try again.")) st
    end in
  setIsLoading (fun prev => {| generating := generating prev; modifying := false |}) st1.

(** *** [handleImageModification], [handleUpscale], [handleExpand]
    (lines 393-411, 451-463) *)

(** The arguments of [handleImageModification]: the thunk [modificationFn]
    (the service function it calls, and how that function turns the model's
    reply into its result) and the prompt recorded on the new poster. *)
Record ModificationPending := {
  mod_call : ServiceCall;
  mod_fn : Gemini.Reply -> Settled string;
  mod_prompt : string
}.

(** Lines 394-395. *)
Definition handleImageModification_begin (p : ModificationPending) (st : AppState)
    : AppState * option ModificationPending :=
  (setError None
     (setIsLoading (fun prev => {| generating := generating prev; modifying := true |}) st),
   Some p).

(** Lines 397-402, the [try] block up to [newPoster]. *)
Definition handleImageModification_try (p : ModificationPending)
    (reply : Gemini.Reply) (now : N) : Settled Poster :=
  bind (mod_fn p reply) (fun newBase64 =>
  Fulfilled {| id := "poster-" ++ show now;
               src := "data:image/jpeg;base64," ++ newBase64;
               prompt := mod_prompt p |}).

(** Lines 403-410: the rest of [try], [catch] and [finally]. *)
Definition handleImageModification_settled (p : ModificationPending)
    (reply : Gemini.Reply) (now : N) (st : AppState) : AppState :=
  let st1 :=
    match handleImageModification_try p reply now with
    | Fulfilled newPoster =>
        setActivePosterId (Some (id newPoster)) (setPosters (push newPoster) st)
    | Rejected err =>
        setError (Some (message_or err "An error occurred during image modification.")) st
    end in
  setIsLoading (fun prev => {| generating := generating prev; modifying := false |}) st1.

Definition handleUpscale_begin (scale : UpscaleFactor) (st : AppState)
    : AppState * option ModificationPending :=
  match find_poster (activePosterId st) (posters st) with
  | None => (st, None)
  | Some active =>
      handleImageModification_begin
        {| mod_call := CallUpscalePoster {| base64 := after_comma (src active);
                                            image_mimeType := "image/jpeg" |} scale;
           mod_fn := Gemini.upscalePoster scale;
           mod_prompt := "Upscaled " ++ show (scale_value scale) ++ "x" |} st
  end.

Definition handleExpand_begin (direction : ExpandDirection) (size : ExpandSize)
    (st : AppState) : AppState * option ModificationPending :=
  match find_poster (activePosterId st) (posters st) with
  | None => (st, None)
  | Some active =>
      handleImageModification_begin
        {| mod_call := CallExpandPoster {| base64 := after_comma (src active);
                                           image_mimeType := "image/jpeg" |}
                         direction size;
           mod_fn := Gemini.expandPoster;
           mod_prompt := "Expanded image (" ++ show_direction direction ++ " "
                         ++ show (size_value size) ++ "%)" |} st
  end.

(** *** [handleApplyFilters] (lines 413-448) *)

(** What is drawn on the canvas, in order. *)
Inductive CanvasOp :=
| SetFilter (brightness contrast saturate : Z)
| DrawImage (image : string)
| FillTint (color : string) (alpha : Q).

(** The browser's side of the canvas: whether [getContext('2d')] gives a
    context, and the data URL [toDataURL('image/jpeg')] encodes from what
    was drawn. *)
Record Canvas := {
  hasContext : bool;
  toDataURL : list CanvasOp -> string
}.

Record FilterPending := {
  filter_poster : Poster;
  filter_values : ImageFilters
}.

(** Lines 414-419: nothing is set before the image has loaded. *)
Definition handleApplyFilters_begin (st : AppState) : AppState * option FilterPending :=
  match find_poster (activePosterId st) (posters st) with
  | None => (st, None)
  | Some active =>
      (st, Some {| filter_poster := active; filter_values := pendingFilters st |})
  end.

(** [tint && tint.amount > 0] *)
Definition tint_applies (t : option Tint) : bool :=
  match t with
  | Some t => negb (Qle_bool (amount t) 0)
  | None => false
  end.

(** Lines 431-436: the overlay, drawn when [tint && tint.amount > 0]. *)
Definition tint_overlay (t : option Tint) : list CanvasOp :=
  match t with
  | Some t => if tint_applies (Some t) then [FillTint (color t) (amount t)] else []
  | None => []
  end.

(** Lines 427-436. *)
Definition draw (p : FilterPending) : list CanvasOp :=
  let f := filter_values p in
  [SetFilter (brightness f) (contrast f) (saturate f); DrawImage (src (filter_poster p))]
  ++ tint_overlay (tint f).

(** Lines 438-443. *)
Definition filteredPoster (p : FilterPending) (canvas : Canvas) (now : N) : Poster :=
  {| id := "poster-" ++ show now;
     src := toDataURL canvas (draw p);
     prompt := "Applied image adjustments" |}.

(** [img.onload], lines 420-447. *)
Definition handleApplyFilters_loaded (p : FilterPending) (canvas : Canvas) (now : N)
    (st : AppState) : AppState :=
  if hasContext canvas then
    let newPoster := filteredPoster p canvas now in
    setPendingFilters DEFAULT_FILTERS
      (setActivePosterId (Some (id newPoster)) (setPosters (push newPoster) st))
  else st.

(** *** The synchronous handlers *)

(** Lines 466-470. *)
Definition handleConfirmRefinement (poster : Poster) (st : AppState) : AppState :=
  setRefinementVariations []
    (setActivePosterId (Some (id poster)) (setPosters (push poster) st)).

(** Lines 472-474. *)
Definition handleCancelRefinement (st : AppState) : AppState :=
  setRefinementVariations [] st.

(** Lines 506-511. *)
Definition handlePreview (st : AppState) : AppState :=
  match find_poster (activePosterId st) (posters st) with
  | Some active => setPreviewModal {| isOpen := true; modal_src := Some (src active) |} st
  | None => st
  end.

(** Lines 513-518. *)
Definition handleOpenPosterCropModal (st : AppState) : AppState :=
  match find_poster (activePosterId st) (posters st) with
  | Some active =>
      setPosterCropModal {| isOpen := true; modal_src := Some (src active) |} st
  | None => st
  end.

(** Lines 520-522. *)
Definition handleClosePosterCropModal (st : AppState) : AppState :=
  setPosterCropModal {| isOpen := false; modal_src := None |} st.

(** Lines 525-529. *)
Definition croppedPoster (croppedImageSrc : string) (now : N) : Poster :=
  {| id := "poster-" ++ show now;
     src := croppedImageSrc;
     prompt := "Cropped image" |}.

(** Lines 524-533. *)
Definition handleApplyPosterCrop (croppedImageSrc : string) (now : N) (st : AppState)
    : AppState :=
  let newPoster := croppedPoster croppedImageSrc now in
  handleClosePosterCropModal
    (setActivePosterId (Some (id newPoster)) (setPosters (push newPoster) st)).

(** ** Rendering *)

(** The effect of lines 264-266, [useEffect(() => setPendingFilters(DEFAULT_FILTERS),
    [activePosterId])]: it runs after a render in which [activePosterId]
    differs from the render before. *)
Definition commit (before after : AppState) : AppState :=
  if same_id (activePosterId before) (activePosterId after) then after
  else setPendingFilters DEFAULT_FILTERS after.

(** Everything that writes the poster state of [App]: a click on a control
    wired to a handler, or the settling of what a handler awaits.  A settling
    event carries the closure it resumes.  The intake handlers
    ([handleFileSelect], [handleApplyProductCrop], [handleCancelProductCrop],
    [handleProductRemove]) write [products], the upload queue and [error]
    only; [products] is an arbitrary input here. *)
Inductive Event :=
| GenerateClicked (concept : string) (hasReference : bool) (posterText : string)
| GenerateSettled (p : GeneratePending) (refRead : Settled EncodedImage)
    (reply : Gemini.Reply) (now : N)
| RefineClicked (refinementPrompt : string)
| RefineSettled (p : RefinePending) (reply1 reply2 : Gemini.Reply) (clock : nat -> N)
| UpscaleClicked (scale : UpscaleFactor)
| ExpandClicked (direction : ExpandDirection) (size : ExpandSize)
| ModificationSettled (p : ModificationPending) (reply : Gemini.Reply) (now : N)
| ApplyFiltersClicked
| ApplyFiltersLoaded (p : FilterPending) (canvas : Canvas) (now : N)
| ConfirmRefinement (poster : Poster)
| CancelRefinement
| SelectPoster (posterId : string)
| FilterChange (filters : ImageFilters)
| FilterReset
| PreviewClicked
| PreviewClosed
| PosterCropOpened
| PosterCropClosed
| PosterCropApplied (croppedImageSrc : string) (now : N)
| AspectRatioChanged (ratio : AspectRatio)
| ErrorDismissed.

(** The state the handler leaves, before the next render. *)
Definition handle (ev : Event) (st : AppState) : AppState :=
  match ev with
  | GenerateClicked concept hasReference posterText =>
      fst (handleGenerate_begin concept hasReference posterText st)
  | GenerateSettled p refRead reply now => handleGenerate_settled p refRead reply now st
  | RefineClicked refinementPrompt => fst (handleRefine_begin refinementPrompt st)
  | RefineSettled p reply1 reply2 clock => handleRefine_settled p reply1 reply2 clock st
  | UpscaleClicked scale => fst (handleUpscale_begin scale st)
  | ExpandClicked direction size => fst (handleExpand_begin direction size st)
  | ModificationSettled p reply now => handleImageModification_settled p reply now st
  | ApplyFiltersClicked => fst (handleApplyFilters_begin st)
  | ApplyFiltersLoaded p canvas now => handleApplyFilters_loaded p canvas now st
  | ConfirmRefinement poster => handleConfirmRefinement poster st
  | CancelRefinement => handleCancelRefinement st
  | SelectPoster posterId => setActivePosterId (Some posterId) st
  | FilterChange filters => setPendingFilters filters st
  | FilterReset => setPendingFilters DEFAULT_FILTERS st
  | PreviewClicked => handlePreview st
  | PreviewClosed => setPreviewModal {| isOpen := false; modal_src := None |} st
  | PosterCropOpened => handleOpenPosterCropModal st
  | PosterCropClosed => handleClosePosterCropModal st
  | PosterCropApplied croppedImageSrc now => handleApplyPosterCrop croppedImageSrc now st
  | AspectRatioChanged ratio => setAspectRatio ratio st
  | ErrorDismissed => setError None st
  end.

(** One event: the handler, then the render with its effect. *)
Definition step (ev : Event) (st : AppState) : AppState :=
  commit st (handle ev st).

Definition run (evs : list Event) (st : AppState) : AppState :=
  fold_left (fun s ev => step ev s) evs st.

(** ** Commands

    A command is a click followed, when the handler got as far as its
    [await], by the settling of what it awaits. *)

Inductive Command :=
| Generate (concept : string) (hasReference : bool) (posterText : string)
| Refine (refinementPrompt : string)
| Upscale (scale : UpscaleFactor)
| Expand (direction : ExpandDirection) (size : ExpandSize).

(** What the outside answers while a command runs. *)
Record World := {
  refRead : Settled EncodedImage;
  reply1 : Gemini.Reply;
  reply2 : Gemini.Reply;
  clock : nat -> N
}.

Definition clicked (c : Command) : Event :=
  match c with
  | Generate concept hasReference posterText =>
      GenerateClicked concept hasReference posterText
  | Refine refinementPrompt => RefineClicked refinementPrompt
  | Upscale scale => UpscaleClicked scale
  | Expand direction size => ExpandClicked direction size
  end.

(** The settling event of a command and the service calls made on the way,
    or [None] when the handler returned before awaiting anything. *)
Definition awaited (c : Command) (w : World) (st : AppState)
    : option (Event * list ServiceCall) :=
  match c with
  | Generate concept hasReference posterText =>
      match snd (handleGenerate_begin concept hasReference posterText st) with
      | Some p => Some (GenerateSettled p (refRead w) (reply1 w) (clock w 0),
                        handleGenerate_calls p (refRead w))
      | None => None
      end
  | Refine refinementPrompt =>
      match snd (handleRefine_begin refinementPrompt st) with
      | Some p => Some (RefineSettled p (reply1 w) (reply2 w) (clock w),
                        handleRefine_calls p)
      | None => None
      end
  | Upscale scale =>
      match snd (handleUpscale_begin scale st) with
      | Some p => Some (ModificationSettled p (reply1 w) (clock w 0), [mod_call p])
      | None => None
      end
  | Expand direction size =>
      match snd (handleExpand_begin direction size st) with
      | Some p => Some (ModificationSettled p (reply1 w) (clock w 0), [mod_call p])
      | None => None
      end
  end.

(** The state a command ends in and the calls that reached the service. *)
Definition exec (c : Command) (w : World) (st : AppState) : AppState * list ServiceCall :=
  match awaited c w st with
  | Some (settled, calls) => (step settled (step (clicked c) st), calls)
  | None => (step (clicked c) st, [])
  end.

(** What the awaited work of a command settled to: [None] when nothing was
    awaited, [Some (Some err)] when it threw [err], [Some None] when it
    succeeded. *)
Definition thrown {A} (r : Settled A) : option Thrown :=
  match r with
  | Fulfilled _ => None
  | Rejected err => Some err
  end.

Definition failure (c : Command) (w : World) (st : AppState) : option (option Thrown) :=
  match awaited c w st with
  | Some (GenerateSettled p refRead reply now, _) =>
      Some (thrown (handleGenerate_try p refRead reply now))
  | Some (RefineSettled _ r1 r2 _, _) => Some (thrown (Gemini.refinePoster r1 r2))
  | Some (ModificationSettled p reply now, _) =>
      Some (thrown (handleImageModification_try p reply now))
  | _ => None
  end.

(** The fallback of [err.message || "..."] in each handler's [catch]. *)
Definition fallback_message (c : Command) : string :=
  match c with
  | Generate _ _ _ => "Failed to generate poster. Please try again."
  | Refine _ => "Failed to refine poster. Please try again."
  | Upscale _ | Expand _ _ => "An error occurred during image modification."
  end.

(** Apply the pending adjustment: the click, then [img.onload]. *)
Definition applyFilters (canvas : Canvas) (now : N) (st : AppState) : AppState :=
  match snd (handleApplyFilters_begin st) with
  | Some p => step (ApplyFiltersLoaded p canvas now) (step ApplyFiltersClicked st)
  | None => step ApplyFiltersClicked st
  end.

(** ** [PosterDisplay]: choosing a variation *)

Module PosterDisplay.

(** [App]'s state with the component's own [selectedVariationId]. *)
Record Ui := {
  app : AppState;
  selectedVariationId : option string
}.

(** The effect that preselects the first candidate:
    [if (refinementVariations.length > 0 && !selectedVariationId)]. *)
Definition preselect (ui : Ui) : Ui :=
  match refinementVariations (app ui) with
  | first :: _ =>
      if truthy_opt (selectedVariationId ui) then ui
      else {| app := app ui; selectedVariationId := Some (id first) |}
  | [] => ui
  end.

(** A click on a candidate. *)
Definition select (variationId : string) (ui : Ui) : Ui :=
  {| app := app ui; selectedVariationId := Some variationId |}.

Definition handleConfirm (ui : Ui) : Ui :=
  match find_poster (selectedVariationId ui) (refinementVariations (app ui)) with
  | Some selected =>
      {| app := step (ConfirmRefinement selected) (app ui);
         selectedVariationId := None |}
  | None => ui
  end.

Definition handleCancel (ui : Ui) : Ui :=
  {| app := step CancelRefinement (app ui); selectedVariationId := None |}.

End PosterDisplay.

(** ** [PosterGallery]: the two thumbnails *)

Module PosterGallery.

Inductive Slot := Current | Previous.

(** [posters[0]] and [posters[1]] of the [posters.slice(0, 2)] it is given. *)
Definition shown (slot : Slot) (st : AppState) : option Poster :=
  nth_error (firstn 2 (posters st))
    (match slot with Current => 0 | Previous => 1 end).

(** [onClick={() => onSelect(poster.id)}], with [onSelect={setActivePosterId}]. *)
Definition click (slot : Slot) (st : AppState) : AppState :=
  match shown slot st with
  | Some poster => step (SelectPoster (id poster)) st
  | None => st
  end.

End PosterGallery.

(** ** What an event adds to the history *)

(** The poster version an event creates and pushes, if it does. *)
Definition produced (ev : Event) : option Poster :=
  match ev with
  | GenerateSettled p refRead reply now =>
      match handleGenerate_try p refRead reply now with
      | Fulfilled newPoster => Some newPoster
      | Rejected _ => None
      end
  | ModificationSettled p reply now =>
      match handleImageModification_try p reply now with
      | Fulfilled newPoster => Some newPoster
      | Rejected _ => None
      end
  | ApplyFiltersLoaded p canvas now =>
      if hasContext canvas then Some (filteredPoster p canvas now) else None
  | ConfirmRefinement poster => Some poster
  | PosterCropApplied croppedImageSrc now => Some (croppedPoster croppedImageSrc now)
  | _ => None
  end.

(** The versions a sequence of events pushed, the latest first. *)
Fixpoint produced_all (evs : list Event) : list Poster :=
  match evs with
  | [] => []
  | ev :: rest =>
      produced_all rest ++ match produced ev with Some v => [v] | None => [] end
  end.

(** [Some image] when the reply to a variation request holds an image. *)
Definition image_of (r : Gemini.GenerateContentResponse) : option string :=
  Gemini.first_inline_data (Gemini.response_parts r).

(** Candidate [index] of a refine, as line 379 builds it. *)
Definition candidate (index : nat) (clock : nat -> N) (refinementPrompt base64 : string)
    : Poster :=
  {| id := "poster-variation-" ++ show (clock index) ++ "-" ++ show (N.of_nat index);
     src := "data:image/jpeg;base64," ++ base64;
     prompt := refinementPrompt |}.

(** The commands that start from the active poster. *)
Definition edits_active (c : Command) : bool :=
  match c with
  | Generate _ _ _ => false
  | Refine _ | Upscale _ | Expand _ _ => true
  end.

(** ** Concrete inputs *)

Module Sample.

Definition reply_with (d : string) : Gemini.Reply :=
  Fulfilled
    {| Gemini.candidates :=
         Some [{| Gemini.content :=
                    Some {| Gemini.parts :=
                              Some [{| Gemini.text := Some "Here is your image.";
                                       Gemini.inlineData := None |};
                                    {| Gemini.text := None;
                                       Gemini.inlineData :=
                                         Some {| Gemini.data := d;
                                                 Gemini.mimeType := "image/png" |} |}]
                         |} |}] |}.

(** A response that holds text only. *)
Definition reply_without_image : Gemini.Reply :=
  Fulfilled
    {| Gemini.candidates :=
         Some [{| Gemini.content :=
                    Some {| Gemini.parts :=
                              Some [{| Gemini.text := Some "I cannot do that.";
                                       Gemini.inlineData := None |}] |} |}] |}.

(** A request the provider refused. *)
Definition reply_rejected : Gemini.Reply :=
  Rejected (Error "429 RESOURCE_EXHAUSTED").

Definition v1 : Poster :=
  {| id := "poster-1000"; src := "data:image/jpeg;base64,AAAA"; prompt := "neon sign" |}.

Definition v2 : Poster :=
  {| id := "poster-2000"; src := "data:image/jpeg;base64,BBBB"; prompt := "Upscaled 2x" |}.

Definition candidate1 : Poster :=
  {| id := "poster-variation-3000-0"; src := "data:image/jpeg;base64,CCCC";
     prompt := "make it blue" |}.

Definition candidate2 : Poster :=
  {| id := "poster-variation-3000-1"; src := "data:image/jpeg;base64,DDDD";
     prompt := "make it blue" |}.

Definition product1 : Product :=
  {| product_id := "shoe.png-900"; original := "data:image/jpeg;base64,PPPP";
     originalMimeType := "image/jpeg";
     processed := Some "data:image/png;base64,QQQQ"; isProcessing := false |}.

(** A product whose background removal has not finished. *)
Definition product_unprocessed : Product :=
  {| product_id := "hat.png-950"; original := "data:image/jpeg;base64,RRRR";
     originalMimeType := "image/jpeg"; processed := None; isProcessing := true |}.

Definition with_history (ps : list Poster) (active : option string) (st : AppState)
    : AppState :=
  setActivePosterId active (setPosters (fun _ => ps) st).

Definition with_products (ps : list Product) (st : AppState) : AppState :=
  {| products := ps; posters := posters st;
     activePosterId := activePosterId st; aspectRatio := aspectRatio st;
     isLoading := isLoading st; error := error st;
     refinementVariations := refinementVariations st;
     pendingFilters := pendingFilters st; previewModal := previewModal st;
     posterCropModal := posterCropModal st |}.

(** One poster, shown and active. *)
Definition viewing : AppState := with_history [v1] (Some "poster-1000") initialState.

(** Two posters, the newer one active. *)
Definition viewing2 : AppState := with_history [v2; v1] (Some "poster-2000") initialState.

(** Two candidates of a refine wait for the user's choice. *)
Definition choosing : AppState := setRefinementVariations [candidate1; candidate2] viewing.

(** A history whose active id names a version that is no longer in it. *)
Definition dangling : AppState := with_history [v2; v1] (Some "poster-500") initialState.

Definition warm : ImageFilters :=
  {| brightness := 120; contrast := 100; saturate := 100;
     tint := Some {| color := "#ff8c00"; amount := 3 # 10 |} |}.

Definition world (r1 r2 : Gemini.Reply) : World :=
  {| refRead := Rejected (Error' None); reply1 := r1; reply2 := r2;
     clock := fun _ => 3000%N |}.

(** A canvas whose encoder names what was drawn last. *)
Definition canvas : Canvas :=
  {| hasContext := true;
     toDataURL := fun ops =>
       match rev ops with
       | FillTint c _ :: _ => String.append "data:image/jpeg;base64,tinted:" c
       | _ => "data:image/jpeg;base64,plain"
       end |}.

(** One product, background removed, and nothing generated yet. *)
Definition ready : AppState := with_products [product1] initialState.

(** One product still being processed. *)
Definition not_ready : AppState := with_products [product_unprocessed] initialState.

(** The adjustment [warm] is pending on the one poster shown. *)
Definition adjusting : AppState := setPendingFilters warm viewing.

Definition generate_pending : GeneratePending :=
  {| gen_products := [product1]; gen_concept := "neon sign";
     gen_aspectRatio := AR_9_16; gen_hasReference := false;
     gen_posterText := ""; gen_previewOpen := false |}.

Definition upscale_pending : ModificationPending :=
  {| mod_call := CallUpscalePoster {| base64 := Some "AAAA";
                                      image_mimeType := "image/jpeg" |} Scale2;
     mod_fn := Gemini.upscalePoster Scale2;
     mod_prompt := "Upscaled 2x" |}.

(** Generate a poster, upscale it, refine it and confirm the first
    candidate. *)
Definition session : list Event :=
  [GenerateClicked "neon sign" false "";
   GenerateSettled generate_pending (Rejected (Error' None)) (reply_with "AAAA") 1000;
   UpscaleClicked Scale2;
   ModificationSettled upscale_pending (reply_with "BBBB") 2000;
   RefineClicked "make it blue";
   RefineSettled {| refine_poster := v2; refine_prompt := "make it blue" |}
     (reply_with "CCCC") (reply_with "DDDD") (fun _ => 3000%N);
   ConfirmRefinement candidate1].

(** The chooser with the second candidate selected. *)
Definition chooser : PosterDisplay.Ui :=
  {| PosterDisplay.app := choosing;
     PosterDisplay.selectedVariationId := Some "poster-variation-3000-1" |}.

End Sample.

(** ** The rest of [App.tsx] *)

(** [disabled={products.every(p => !p.processed)}] (line 563): the
    [disabled] prop [App] hands to [ConceptInput].  The button itself
    ([ConceptInput.tsx], line 71) is disabled by
    [!concept.trim() || isLoading || disabled], that is also on a blank
    concept and while a generate is in flight. *)
Definition generateDisabled (st : AppState) : bool :=
  forallb (fun p => negb (truthy_opt (processed p))) (products st).

(** [disabled={!activePoster}] (line 587): the prop that greys out Apply. *)
Definition applyDisabled (st : AppState) : bool :=
  match activePoster st with
  | Some _ => false
  | None => true
  end.

(** [if (refinementVariations.length > 0) return <chooser>] (part_002:128):
    while candidates wait, [PosterDisplay] renders the chooser in place of
    the poster and of the Refine box under it. *)
Definition chooser_shown (st : AppState) : bool :=
  (0 <? length (refinementVariations st))%nat.

(** Whether a command can be issued in a state.  [handleRefine] is called
    from the Refine box only, which is not rendered while the chooser is;
    the Generate form is rendered in every state, and no control stands
    between a state and [handleUpscale] or [handleExpand]. *)
Definition offered (c : Command) (st : AppState) : bool :=
  match c with
  | Refine _ => negb (chooser_shown st)
  | Generate _ _ _ | Upscale _ | Expand _ _ => true
  end.

(** The prompt a command records on the poster it produces. *)
Definition command_prompt (c : Command) : string :=
  match c with
  | Generate concept _ _ => concept
  | Refine refinementPrompt => refinementPrompt
  | Upscale scale => "Upscaled " ++ show (scale_value scale) ++ "x"
  | Expand direction size =>
      "Expanded image (" ++ show_direction direction ++ " "
      ++ show (size_value size) ++ "%)"
  end.

(** The call a command on the active poster makes, given the image it
    sends. *)
Definition call_with (c : Command) (currentPoster : EncodedImage) : list ServiceCall :=
  match c with
  | Generate _ _ _ => []
  | Refine refinementPrompt => [CallRefinePoster currentPoster refinementPrompt]
  | Upscale scale => [CallUpscalePoster currentPoster scale]
  | Expand direction size => [CallExpandPoster currentPoster direction size]
  end.

(** The reply is a response whose first part with inline data holds
    [image]. *)
Definition first_image (reply : Gemini.Reply) (image : string) : Prop :=
  exists r before p after blob,
    reply = Fulfilled r
    /\ Gemini.response_parts r = before ++ p :: after
    /\ Forall (fun q => Gemini.inlineData q = None) before
    /\ Gemini.inlineData p = Some blob
    /\ Gemini.data blob = image.

(** [true] when the separator occurs in the string. *)
Fixpoint occurs (sep : ascii) (s : string) : bool :=
  match s with
  | EmptyString => false
  | String c rest => if Ascii.eqb c sep then true else occurs sep rest
  end.

(** What the user can do to the poster state: anything a handler is wired
    to, and a click on one of the two thumbnails.  [setActivePosterId] is
    handed to the gallery only, so a [SelectPoster] never comes from
    anywhere else. *)
Inductive Action :=
| Handled (ev : Event)
| Thumbnail (slot : PosterGallery.Slot).

Definition act (a : Action) (st : AppState) : AppState :=
  match a with
  | Handled ev => step ev st
  | Thumbnail slot => PosterGallery.click slot st
  end.

Definition wired (a : Action) : bool :=
  match a with
  | Handled (SelectPoster _) => false
  | _ => true
  end.

Definition perform (actions : list Action) (st : AppState) : AppState :=
  fold_left (fun s a => act a s) actions st.

(** The active id names a member of the history, or there is no history. *)
Definition pointer_resolves (st : AppState) : Prop :=
  match find_poster (activePosterId st) (posters st) with
  | Some _ => True
  | None => posters st = []
  end.

(** *** [ImageEditor] (lines 134-154)

    The editor is given [filters={pendingFilters}] and
    [onFilterChange={setPendingFilters}]. *)

Module ImageEditor.

Inductive Slider := Brightness | Contrast | Saturate.

(** [{ ...filters, [filterName]: Number(value) }]; [value] is the number the
    range input holds. *)
Definition handleSliderChange (filterName : Slider) (value : Z) (st : AppState)
    : AppState :=
  let filters := pendingFilters st in
  step (FilterChange
          match filterName with
          | Brightness =>
              {| brightness := value; contrast := contrast filters;
                 saturate := saturate filters; tint := tint filters |}
          | Contrast =>
              {| brightness := brightness filters; contrast := value;
                 saturate := saturate filters; tint := tint filters |}
          | Saturate =>
              {| brightness := brightness filters; contrast := contrast filters;
                 saturate := value; tint := tint filters |}
          end) st.

(** [if (filters.tint) onFilterChange(...)] *)
Definition handleTintAmountChange (newAmount : Q) (st : AppState) : AppState :=
  let filters := pendingFilters st in
  match tint filters with
  | Some t =>
      step (FilterChange
              {| brightness := brightness filters; contrast := contrast filters;
                 saturate := saturate filters;
                 tint := Some {| color := color t; amount := newAmount |} |}) st
  | None => st
  end.

(** [filters.tint?.amount || 0.3]: a missing tint and an amount of zero both
    give 0.3. *)
Definition amount_or_default (t : option Tint) : Q :=
  match t with
  | Some t => if Qeq_bool (amount t) 0 then 3 # 10 else amount t
  | None => 3 # 10
  end.

Definition handleTintColorChange (newColor : string) (st : AppState) : AppState :=
  let filters := pendingFilters st in
  step (FilterChange
          {| brightness := brightness filters; contrast := contrast filters;
             saturate := saturate filters;
             tint := Some {| color := newColor;
                             amount := amount_or_default (tint filters) |} |}) st.

Definition clearTint (st : AppState) : AppState :=
  let filters := pendingFilters st in
  step (FilterChange
          {| brightness := brightness filters; contrast := contrast filters;
             saturate := saturate filters; tint := None |}) st.

End ImageEditor.

(** *** The product intake (lines 260-323) *)

Definition setProducts (f : list Product -> list Product) (st : AppState) : AppState :=
  {| products := f (products st); posters := posters st;
     activePosterId := activePosterId st; aspectRatio := aspectRatio st;
     isLoading := isLoading st; error := error st;
     refinementVariations := refinementVariations st;
     pendingFilters := pendingFilters st; previewModal := previewModal st;
     posterCropModal := posterCropModal st |}.

Module Intake.

(** What the handlers read of a [File]. *)
Record File := { file_name : string }.

Record CropJob := { file : File; fileURL : string }.

(** [App]'s state with the two pieces the intake adds. *)
Record State := {
  app : AppState;
  uploadQueue : list File;
  productToCrop : option CropJob
}.

Definition initial : State :=
  {| app := initialState; uploadQueue := []; productToCrop := None |}.

(** Lines 276-278. *)
Definition handleFileSelect (files : list File) (st : State) : State :=
  {| app := app st; uploadQueue := uploadQueue st ++ files;
     productToCrop := productToCrop st |}.

(** The effect of lines 269-274; [url] is what [URL.createObjectURL] mints
    if it is called. *)
Definition process_queue (url : string) (st : State) : State :=
  match uploadQueue st, productToCrop st with
  | nextFile :: _, None =>
      {| app := app st; uploadQueue := uploadQueue st;
         productToCrop := Some {| file := nextFile; fileURL := url |} |}
  | _, _ => st
  end.

Record Pending := {
  newProduct : Product;
  cropped_file : File
}.

(** [handleApplyProductCrop] is a [useCallback] on [[productToCrop]]: it
    reads [productToCrop] from the render it was created in.  [CropTool]
    calls it as [onCrop] from [image.onload] (part_003, lines 206-218), some
    time after the click on Apply Crop, with the [onCrop] of the render in
    which the click happened.  This is the job that render held. *)
Definition captured_at_click (st : State) : option CropJob := productToCrop st.

(** Lines 281-294: up to the first [await].  [captured] is the
    [productToCrop] of the handler's closure; the three setters act on the
    state the handler finds when it runs. *)
Definition handleApplyProductCrop_begin (captured : option CropJob)
    (croppedImageSrc : string) (now : N) (st : State) : State * option Pending :=
  match captured with
  | None => (st, None)
  | Some job =>
      let product :=
        {| product_id := (file_name (file job) ++ "-" ++ show now)%string;
           original := croppedImageSrc;
           originalMimeType := "image/jpeg";
           processed := None;
           isProcessing := true |} in
      ({| app := setProducts (fun prev => prev ++ [product]) (app st);
          uploadQueue := skipn 1 (uploadQueue st);
          productToCrop := None |},
       Some {| newProduct := product; cropped_file := file job |})
  end.

(** Lines 296-305: [read] is what fetching the cropped image and reading it
    back as base64 settles to, [reply] the model's answer to the background
    removal. *)
Definition handleApplyProductCrop_try (read : Settled (option string))
    (reply : Gemini.Reply) : Settled string :=
  bind read (fun _ =>
  bind (Gemini.removeBackground reply) (fun processedBase64 =>
  Fulfilled ("data:image/png;base64," ++ processedBase64)%string)).

(** [prev.map(p => p.id === newProduct.id ? update(p) : p)] *)
Definition update_product (target : string) (update : Product -> Product)
    (prev : list Product) : list Product :=
  map (fun p => if String.eqb (product_id p) target then update p else p) prev.

(** Lines 306-312. *)
Definition handleApplyProductCrop_settled (p : Pending) (read : Settled (option string))
    (reply : Gemini.Reply) (st : State) : State :=
  let target := product_id (newProduct p) in
  match handleApplyProductCrop_try read reply with
  | Fulfilled processedSrc =>
      {| app := setProducts
                  (update_product target (fun q =>
                     {| product_id := product_id q; original := original q;
                        originalMimeType := originalMimeType q;
                        processed := Some processedSrc; isProcessing := false |}))
                  (app st);
         uploadQueue := uploadQueue st; productToCrop := productToCrop st |}
  | Rejected _ =>
      {| app := setProducts
                  (update_product target (fun q =>
                     {| product_id := product_id q; original := original q;
                        originalMimeType := originalMimeType q;
                        processed := processed q; isProcessing := false |}))
                  (setError (Some ("Failed to process image: "
                                   ++ file_name (cropped_file p))%string) (app st));
         uploadQueue := uploadQueue st; productToCrop := productToCrop st |}
  end.

(** Lines 316-319. *)
Definition handleCancelProductCrop (st : State) : State :=
  {| app := app st; uploadQueue := skipn 1 (uploadQueue st); productToCrop := None |}.

(** Lines 321-323. *)
Definition handleProductRemove (target : string) (st : State) : State :=
  {| app := setProducts (filter (fun p => negb (String.eqb (product_id p) target)))
              (app st);
     uploadQueue := uploadQueue st; productToCrop := productToCrop st |}.

Inductive Event :=
| FilesSelected (files : list File)
| CropApplied (captured : option CropJob) (croppedImageSrc : string) (now : N)
| BackgroundSettled (p : Pending) (read : Settled (option string))
    (reply : Gemini.Reply)
| CropCancelled
| ProductRemoved (target : string).

Definition handle (ev : Event) (st : State) : State :=
  match ev with
  | FilesSelected files => handleFileSelect files st
  | CropApplied captured croppedImageSrc now =>
      fst (handleApplyProductCrop_begin captured croppedImageSrc now st)
  | BackgroundSettled p read reply => handleApplyProductCrop_settled p read reply st
  | CropCancelled => handleCancelProductCrop st
  | ProductRemoved target => handleProductRemove target st
  end.

(** One event: the handler, then the render with the queue effect.  No
    intake handler writes [activePosterId], so the effect on the pending
    adjustment has nothing to do. *)
Definition step (ev : Event) (url : string) (st : State) : State :=
  process_queue url (handle ev st).

Definition run (evs : list (Event * string)) (st : State) : State :=
  fold_left (fun s e => step (fst e) (snd e) s) evs st.

(** The file shown in the crop tool is the head of the queue, and a queue
    with a file in it has one shown. *)
Definition queue_in_step (st : State) : Prop :=
  option_map file (productToCrop st) = hd_error (uploadQueue st).

(** What a handler alone guarantees, before the effect has run: the file
    in the crop tool, if there is one, is the head of the queue. *)
Definition job_is_head (st : State) : Prop :=
  match productToCrop st with
  | Some job => hd_error (uploadQueue st) = Some (file job)
  | None => True
  end.

End Intake.

(** ** [hooks/useTheme]: the theme provider *)

Module ThemeProvider.

Inductive Theme := light | dark.

Definition class_of (t : Theme) : string :=
  match t with light => "light" | dark => "dark" end.

(** [root.classList], a list of distinct tokens. *)
Definition ClassList := list string.

Definition contains (token : string) (classes : ClassList) : bool :=
  existsb (String.eqb token) classes.

Definition remove (token : string) (classes : ClassList) : ClassList :=
  filter (fun c => negb (String.eqb c token)) classes.

Definition add (token : string) (classes : ClassList) : ClassList :=
  if contains token classes then classes else classes ++ [token].

Record State := {
  theme : Theme;
  rootClasses : ClassList
}.

(** [useState<Theme>('dark')] over the document it is mounted in. *)
Definition mounted (classes : ClassList) : State :=
  {| theme := dark; rootClasses := classes |}.

(** The effect run once after mounting. *)
Definition sync (st : State) : State :=
  {| theme := if contains "dark" (rootClasses st) then dark else light;
     rootClasses := rootClasses st |}.

Definition toggleTheme (st : State) : State :=
  let newTheme := match theme st with light => dark | dark => light end in
  {| theme := newTheme;
     rootClasses := add (class_of newTheme) (remove (class_of (theme st)) (rootClasses st)) |}.

Fixpoint toggles (n : nat) (st : State) : State :=
  match n with
  | O => st
  | S n => toggleTheme (toggles n st)
  end.

End ThemeProvider.

(** ** More concrete inputs *)

Module Sample2.

Definition shoe : Intake.File := {| Intake.file_name := "shoe.png" |}.
Definition hat : Intake.File := {| Intake.file_name := "hat.png" |}.

(** Two files are selected, the first is cropped (the handler runs with the
    job of the render that showed it), the second cancelled. *)
Definition upload : list (Intake.Event * string) :=
  [(Intake.FilesSelected [shoe; hat], "blob:1");
   (Intake.CropApplied (Some {| Intake.file := shoe; Intake.fileURL := "blob:1" |})
      "data:image/jpeg;base64,PPPP" 900, "blob:2");
   (Intake.CropCancelled, "blob:3")].

(** Two files are selected and Apply Crop is clicked twice on the first
    before its image has loaded: both handlers run with the first file's
    job. *)
Definition double_apply : list (Intake.Event * string) :=
  [(Intake.FilesSelected [shoe; hat], "blob:1");
   (Intake.CropApplied (Some {| Intake.file := shoe; Intake.fileURL := "blob:1" |})
      "data:image/jpeg;base64,PPPP" 900, "blob:2");
   (Intake.CropApplied (Some {| Intake.file := shoe; Intake.fileURL := "blob:1" |})
      "data:image/jpeg;base64,PPPP" 901, "blob:3")].

Definition shoe_pending : Intake.Pending :=
  {| Intake.newProduct :=
       {| product_id := "shoe.png-900"; original := "data:image/jpeg;base64,PPPP";
          originalMimeType := "image/jpeg"; processed := None; isProcessing := true |};
     Intake.cropped_file := shoe |}.

(** A session at the wired controls: generate, upscale, go back to the
    previous version, refine and confirm. *)
Definition clicks : list Action :=
  [Handled (GenerateClicked "neon sign" false "");
   Handled (GenerateSettled Sample.generate_pending (Rejected (Error' None))
              (Sample.reply_with "AAAA") 1000);
   Handled (UpscaleClicked Scale2);
   Handled (ModificationSettled Sample.upscale_pending (Sample.reply_with "BBBB") 2000);
   Thumbnail PosterGallery.Previous;
   Handled (RefineClicked "make it blue");
   Handled (RefineSettled {| refine_poster := Sample.v1; refine_prompt := "make it blue" |}
              (Sample.reply_with "CCCC") (Sample.reply_with "DDDD") (fun _ => 3000%N));
   Handled (ConfirmRefinement Sample.candidate2)].

(** A tint whose intensity slider was pulled down to zero. *)
Definition faded : ImageFilters :=
  {| brightness := 120; contrast := 100; saturate := 100;
     tint := Some {| color := "#00a1d9"; amount := 0 |} |}.

End Sample2.

(** * Properties *)

(** ** Setters, rendering and lookup *)

Lemma same_id_refl (a : option string) : same_id a a = true.
Proof. destruct a as [s|]; simpl; [apply String.eqb_refl | reflexivity]. Qed.

Lemma same_id_eq (a b : option string) : same_id a b = true <-> a = b.
Proof.
  destruct a as [x|], b as [y|]; simpl; split; intro H;
    try discriminate; try reflexivity.
  - apply String.eqb_eq in H. now subst.
  - injection H as ->. apply String.eqb_refl.
Qed.

Lemma commit_same (st : AppState) : commit st st = st.
Proof. unfold commit. now rewrite same_id_refl. Qed.

Lemma commit_posters before after : posters (commit before after) = posters after.
Proof. unfold commit. now destruct (same_id _ _). Qed.

Lemma commit_activePosterId before after :
  activePosterId (commit before after) = activePosterId after.
Proof. unfold commit. now destruct (same_id _ _). Qed.

Lemma commit_refinementVariations before after :
  refinementVariations (commit before after) = refinementVariations after.
Proof. unfold commit. now destruct (same_id _ _). Qed.

Lemma commit_error before after : error (commit before after) = error after.
Proof. unfold commit. now destruct (same_id _ _). Qed.

Lemma commit_pendingFilters before after :
  pendingFilters (commit before after) =
  if same_id (activePosterId before) (activePosterId after)
  then pendingFilters after else DEFAULT_FILTERS.
Proof. unfold commit. now destruct (same_id _ _). Qed.

Lemma find_poster_some target ps p :
  find_poster target ps = Some p -> In p ps /\ Some (id p) = target.
Proof.
  unfold find_poster. intro H. apply find_some in H as [Hin Heq].
  split; [assumption | now apply same_id_eq].
Qed.

Lemma find_poster_none target ps :
  find_poster target ps = None <-> (forall p, In p ps -> Some (id p) <> target).
Proof.
  unfold find_poster. split.
  - intros H p Hin Heq.
    pose proof (find_none _ _ H p Hin) as Hno. cbv beta in Hno.
    apply same_id_eq in Heq. congruence.
  - intro H. induction ps as [|q ps IH]; [reflexivity|].
    cbn [find]. destruct (same_id (Some (id q)) target) eqn:E.
    + apply same_id_eq in E. exfalso. apply (H q); [now left | assumption].
    + apply IH. intros p Hin. apply H. now right.
Qed.

Lemma find_poster_head p ps : find_poster (Some (id p)) (p :: ps) = Some p.
Proof. unfold find_poster. cbn [find same_id]. now rewrite String.eqb_refl. Qed.

(** ** The history *)

Lemma push_length v prev : (length (push v prev) <= 2)%nat.
Proof. unfold push. destruct prev as [|a [|b l]]; simpl; lia. Qed.

(** What any event does to the history: nothing, or one push. *)
Lemma step_posters ev st :
  posters (step ev st) =
  match produced ev with
  | Some v => push v (posters st)
  | None => posters st
  end.
Proof.
  unfold step. rewrite commit_posters.
  destruct ev; simpl; try reflexivity.
  - unfold handleGenerate_begin.
    now destruct (length _ =? 0)%nat.
  - unfold handleGenerate_settled.
    destruct (handleGenerate_try _ _ _ _); simpl; [|reflexivity].
    now destruct (gen_previewOpen _).
  - unfold handleRefine_begin. now destruct (find_poster _ _).
  - unfold handleRefine_settled. now destruct (Gemini.refinePoster _ _).
  - unfold handleUpscale_begin. now destruct (find_poster _ _).
  - unfold handleExpand_begin. now destruct (find_poster _ _).
  - unfold handleImageModification_settled.
    now destruct (handleImageModification_try _ _ _).
  - unfold handleApplyFilters_begin. now destruct (find_poster _ _).
  - unfold handleApplyFilters_loaded. now destruct (hasContext _).
  - unfold handlePreview. now destruct (find_poster _ _).
  - unfold handleOpenPosterCropModal. now destruct (find_poster _ _).
Qed.

Lemma firstn2_absorb (newer : list Poster) v older :
  firstn 2 (newer ++ push v older) = firstn 2 (newer ++ v :: older).
Proof.
  unfold push. destruct newer as [|a [|b newer]]; simpl; try reflexivity.
  now destruct older.
Qed.

Lemma run_posters evs : forall st,
  (length (posters st) <= 2)%nat ->
  posters (run evs st) = firstn 2 (produced_all evs ++ posters st).
Proof.
  induction evs as [|ev rest IH]; intros st Hlen.
  - unfold run. cbn [fold_left produced_all app].
    symmetry. apply firstn_all2. exact Hlen.
  - change (run (ev :: rest) st) with (run rest (step ev st)).
    simpl produced_all. rewrite <- app_assoc.
    pose proof (step_posters ev st) as Hstep.
    destruct (produced ev) as [v|].
    + rewrite IH by (rewrite Hstep; apply push_length).
      rewrite Hstep. apply firstn2_absorb.
    + rewrite IH by (rewrite Hstep; exact Hlen).
      now rewrite Hstep.
Qed.

(** C1.  Whatever events reach the application and however their
    settlings interleave, a history that holds at most two versions keeps
    holding at most two; it is the two newest of the versions pushed so far
    followed by what was there before, so the version pushed last is at
    position 0 and everything past the second entry is gone; and each event
    that produces a version (a generate, upscale or expand that succeeded,
    a confirmed refinement, applied filters, a confirmed crop) puts it in
    front of the first entry of the history it found. *)
Theorem history_keeps_newest_two (evs : list Event) (st : AppState) :
  (length (posters st) <= 2)%nat ->
  (length (posters (run evs st)) <= 2)%nat
  /\ posters (run evs st) = firstn 2 (produced_all evs ++ posters st)
  /\ (forall v earlier, produced_all evs = v :: earlier ->
        nth_error (posters (run evs st)) 0 = Some v)
  /\ (forall ev v, produced ev = Some v ->
        posters (step ev (run evs st)) = v :: firstn 1 (posters (run evs st))).
Proof.
  intro Hlen.
  pose proof (run_posters evs st Hlen) as Hrun.
  repeat split.
  - rewrite Hrun. rewrite length_firstn. lia.
  - exact Hrun.
  - intros v earlier Hv. rewrite Hrun, Hv. reflexivity.
  - intros ev v Hv. rewrite step_posters, Hv. reflexivity.
Qed.

(** ** Refining *)

Lemma step_same_active ev st :
  activePosterId (handle ev st) = activePosterId st ->
  step ev st = handle ev st.
Proof.
  intro H. unfold step, commit. now rewrite <- H, same_id_refl.
Qed.

Lemma refinePoster_replies (r1 r2 : Gemini.GenerateContentResponse) :
  Gemini.refinePoster (Fulfilled r1) (Fulfilled r2) =
  match image_of r1, image_of r2 with
  | Some a, Some b => Fulfilled [a; b]
  | Some a, None => Fulfilled [a]
  | None, Some b => Fulfilled [b]
  | None, None => Rejected (Error "Failed to refine the poster.")
  end.
Proof.
  unfold Gemini.refinePoster, Gemini.generateVariation, image_of. cbn.
  destruct (Gemini.first_inline_data (Gemini.response_parts r1));
    destruct (Gemini.first_inline_data (Gemini.response_parts r2)); reflexivity.
Qed.

Lemma refinePoster_rejected (reply1 reply2 : Gemini.Reply) :
  thrown reply1 <> None \/ thrown reply2 <> None ->
  Gemini.refinePoster reply1 reply2 = Rejected (Error "Failed to refine the poster.").
Proof.
  unfold Gemini.refinePoster, Gemini.generateVariation.
  destruct reply1 as [r1|e1], reply2 as [r2|e2]; cbn; try reflexivity.
  intros [H|H]; now elim H.
Qed.

(** A refine whose active poster resolves: what it leaves behind. *)
Lemma exec_refine refinementPrompt w st active :
  find_poster (activePosterId st) (posters st) = Some active ->
  let done := exec (Refine refinementPrompt) w st in
  snd done = [CallRefinePoster {| base64 := after_comma (src active);
                                  image_mimeType := "image/jpeg" |} refinementPrompt]
  /\ posters (fst done) = posters st
  /\ activePosterId (fst done) = activePosterId st
  /\ refinementVariations (fst done) =
       match Gemini.refinePoster (reply1 w) (reply2 w) with
       | Fulfilled images => variations_from 0 (clock w) refinementPrompt images
       | Rejected _ => []
       end
  /\ error (fst done) =
       match Gemini.refinePoster (reply1 w) (reply2 w) with
       | Fulfilled _ => None
       | Rejected err =>
           Some (message_or err "Failed to refine poster. Please try again.")
       end.
Proof.
  intros Hfind done. subst done.
  unfold exec, awaited, handleRefine_begin. rewrite Hfind. cbn [snd fst clicked].
  rewrite (step_same_active (RefineClicked refinementPrompt) st)
    by (cbn; unfold handleRefine_begin; now rewrite Hfind).
  rewrite step_same_active.
  - cbn. unfold handleRefine_begin, handleRefine_settled. rewrite Hfind. cbn.
    destruct (Gemini.refinePoster (reply1 w) (reply2 w)); cbn; repeat split; reflexivity.
  - cbn. unfold handleRefine_begin, handleRefine_settled. rewrite Hfind. cbn.
    now destruct (Gemini.refinePoster (reply1 w) (reply2 w)).
Qed.

(** C2, as the code has it.  A refine on a resolving active poster makes
    one call of [refinePoster], which waits for the replies to its two
    variation requests.  When both requests are answered, the answers that
    hold no image are dropped and the others become the candidates in the
    order the requests were issued: two images give two candidates, exactly
    one image gives exactly one candidate and no error, and no image at all
    gives no candidate and the error "Failed to refine the poster.".  When
    either request is rejected the refine fails in that same way, whatever
    the other request returned. *)
Theorem refine_keeps_images_of_answered_requests
    (refinementPrompt : string) (w : World) (st : AppState) (active : Poster) :
  find_poster (activePosterId st) (posters st) = Some active ->
  let done := exec (Refine refinementPrompt) w st in
  snd done = [CallRefinePoster {| base64 := after_comma (src active);
                                  image_mimeType := "image/jpeg" |} refinementPrompt]
  /\ match reply1 w, reply2 w with
     | Fulfilled r1, Fulfilled r2 =>
         match image_of r1, image_of r2 with
         | Some a, Some b =>
             refinementVariations (fst done) =
               [candidate 0 (clock w) refinementPrompt a;
                candidate 1 (clock w) refinementPrompt b]
             /\ error (fst done) = None
         | Some a, None =>
             refinementVariations (fst done) = [candidate 0 (clock w) refinementPrompt a]
             /\ error (fst done) = None
         | None, Some b =>
             refinementVariations (fst done) = [candidate 0 (clock w) refinementPrompt b]
             /\ error (fst done) = None
         | None, None =>
             refinementVariations (fst done) = []
             /\ error (fst done) = Some "Failed to refine the poster."
         end
     | _, _ =>
         refinementVariations (fst done) = []
         /\ error (fst done) = Some "Failed to refine the poster."
     end.
Proof.
  intros Hfind done.
  destruct (exec_refine refinementPrompt w st Hfind) as (Hcalls & _ & _ & Hvars & Herr).
  fold done in Hcalls, Hvars, Herr.
  split; [exact Hcalls|].
  rewrite Hvars, Herr.
  destruct (reply1 w) as [r1|e1] eqn:E1, (reply2 w) as [r2|e2] eqn:E2.
  - rewrite refinePoster_replies.
    destruct (image_of r1), (image_of r2); split; reflexivity.
  - rewrite refinePoster_rejected by (right; discriminate). split; reflexivity.
  - rewrite refinePoster_rejected by (left; discriminate). split; reflexivity.
  - rewrite refinePoster_rejected by (left; discriminate). split; reflexivity.
Qed.

(** ** Commands that fail or are refused *)

Lemma no_processed_product (ps : list Product) :
  (forall p, In p ps -> truthy_opt (processed p) = false) ->
  filter (fun p => truthy_opt (processed p)) ps = [].
Proof.
  intro H. induction ps as [|p ps IH]; [reflexivity|].
  cbn [filter]. rewrite (H p) by now left.
  apply IH. intros q Hq. apply H. now right.
Qed.

Lemma thrown_rejected {A} (r : Settled A) err : thrown r = Some err -> r = Rejected err.
Proof. destruct r; cbn; congruence. Qed.

(** The four fields the claims speak of, after one event. *)
Lemma step_observed ev st :
  posters (step ev st) = posters (handle ev st)
  /\ activePosterId (step ev st) = activePosterId (handle ev st)
  /\ refinementVariations (step ev st) = refinementVariations (handle ev st)
  /\ error (step ev st) = error (handle ev st).
Proof.
  unfold step.
  now rewrite commit_posters, commit_activePosterId,
    commit_refinementVariations, commit_error.
Qed.

Ltac observe :=
  repeat match goal with
  | |- context [posters (step ?ev ?st)] =>
      rewrite (proj1 (step_observed ev st))
  | |- context [activePosterId (step ?ev ?st)] =>
      rewrite (proj1 (proj2 (step_observed ev st)))
  | |- context [refinementVariations (step ?ev ?st)] =>
      rewrite (proj1 (proj2 (proj2 (step_observed ev st))))
  | |- context [error (step ?ev ?st)] =>
      rewrite (proj2 (proj2 (proj2 (step_observed ev st))))
  end.

(** A click leaves the history and the active id alone; only the click on
    refine, when the active poster resolves, empties the candidate set. *)
Lemma clicked_observed (c : Command) (st : AppState) :
  posters (handle (clicked c) st) = posters st
  /\ activePosterId (handle (clicked c) st) = activePosterId st
  /\ refinementVariations (handle (clicked c) st) =
       match c, find_poster (activePosterId st) (posters st) with
       | Refine _, Some _ => []
       | _, _ => refinementVariations st
       end.
Proof.
  destruct c; cbn [clicked handle].
  - unfold handleGenerate_begin. destruct (length _ =? 0)%nat; now repeat split.
  - unfold handleRefine_begin. destruct (find_poster _ _); now repeat split.
  - unfold handleUpscale_begin. destruct (find_poster _ _); now repeat split.
  - unfold handleExpand_begin. destruct (find_poster _ _); now repeat split.
Qed.

Lemma refine_awaits_resolved refinementPrompt st p :
  snd (handleRefine_begin refinementPrompt st) = Some p ->
  find_poster (activePosterId st) (posters st) = Some (refine_poster p).
Proof.
  unfold handleRefine_begin. destruct (find_poster _ _); cbn; [|discriminate].
  now intros [= <-].
Qed.

(** The handlers taken by themselves, in any state.  When what a command
    awaits is rejected, it leaves one error message (the rejection's own, or
    the handler's fallback when it has none) and the history and the active
    id it found.  The candidate set is what it was after a failed generate,
    upscale or expand, and empty after a failed refine, which clears it
    before calling the service. *)
Lemma failed_command_leaves_history (c : Command) (w : World) (st : AppState)
    (err : Thrown) :
  failure c w st = Some (Some err) ->
  error (fst (exec c w st)) = Some (message_or err (fallback_message c))
  /\ posters (fst (exec c w st)) = posters st
  /\ activePosterId (fst (exec c w st)) = activePosterId st
  /\ refinementVariations (fst (exec c w st)) =
       match c with
       | Refine _ => []
       | _ => refinementVariations st
       end
  /\ (refinementVariations st = [] ->
      refinementVariations (fst (exec c w st)) = refinementVariations st).
Proof.
  intro H.
  enough (Hmain :
    error (fst (exec c w st)) = Some (message_or err (fallback_message c))
    /\ posters (fst (exec c w st)) = posters st
    /\ activePosterId (fst (exec c w st)) = activePosterId st
    /\ refinementVariations (fst (exec c w st)) =
         match c with
         | Refine _ => []
         | _ => refinementVariations st
         end).
  { destruct Hmain as (He & Hp & Ha & Hv). repeat split; try assumption.
    intro Hempty. rewrite Hv, Hempty. now destruct c. }
  revert H. unfold failure, exec. intro H.
  destruct (clicked_observed c st) as (Hposters & Hactive & Hvars).
  destruct c as [concept hasReference posterText | refinementPrompt | scale
                | direction size]; cbn [awaited] in *.
  - destruct (snd (handleGenerate_begin _ _ _ _)) as [p|]; [|discriminate].
    injection H as H. apply thrown_rejected in H.
    cbn [fst]. observe. cbn [handle]. unfold handleGenerate_settled. rewrite H.
    cbn [posters activePosterId refinementVariations error setIsLoading setError].
    observe. rewrite Hposters, Hactive, Hvars. now repeat split.
  - destruct (snd (handleRefine_begin _ _)) as [p|] eqn:Hp; [|discriminate].
    apply refine_awaits_resolved in Hp. rewrite Hp in Hvars.
    injection H as H. apply thrown_rejected in H.
    cbn [fst]. observe. cbn [handle]. unfold handleRefine_settled. rewrite H.
    cbn [posters activePosterId refinementVariations error setIsLoading setError].
    observe. rewrite Hposters, Hactive, Hvars. now repeat split.
  - destruct (snd (handleUpscale_begin _ _)) as [p|]; [|discriminate].
    injection H as H. apply thrown_rejected in H.
    cbn [fst]. observe. cbn [handle]. unfold handleImageModification_settled.
    rewrite H.
    cbn [posters activePosterId refinementVariations error setIsLoading setError].
    observe. rewrite Hposters, Hactive, Hvars. now repeat split.
  - destruct (snd (handleExpand_begin _ _ _)) as [p|]; [|discriminate].
    injection H as H. apply thrown_rejected in H.
    cbn [fst]. observe. cbn [handle]. unfold handleImageModification_settled.
    rewrite H.
    cbn [posters activePosterId refinementVariations error setIsLoading setError].
    observe. rewrite Hposters, Hactive, Hvars. now repeat split.
Qed.

Lemma offered_refine_has_no_candidate refinementPrompt st :
  offered (Refine refinementPrompt) st = true -> refinementVariations st = [].
Proof.
  unfold offered, chooser_shown. now destruct (refinementVariations st).
Qed.

(** C5.  For every generate, refine, upscale or expand command that can be
    issued and whose awaited service work fails, exactly one error message
    is surfaced (the rejection's own, or the handler's fallback when it has
    none), and the history, the active id and the candidate set are what
    they were immediately before the command. *)
Theorem failed_command_restores_state (c : Command) (w : World) (st : AppState)
    (err : Thrown) :
  offered c st = true ->
  failure c w st = Some (Some err) ->
  error (fst (exec c w st)) = Some (message_or err (fallback_message c))
  /\ posters (fst (exec c w st)) = posters st
  /\ activePosterId (fst (exec c w st)) = activePosterId st
  /\ refinementVariations (fst (exec c w st)) = refinementVariations st.
Proof.
  intros Hoffered Hfailed.
  destruct (failed_command_leaves_history c w st Hfailed)
    as (Herror & Hposters & Hactive & Hvars & Hempty).
  repeat split; try assumption.
  destruct c as [| refinementPrompt | |]; try exact Hvars.
  apply Hempty. exact (offered_refine_has_no_candidate _ _ Hoffered).
Qed.

(** C9.  A generate command issued while no product has a processed image
    stops at the guard of line 327: the handler returns before it awaits
    anything, no call reaches the image service, the validation message is
    the only thing written, and the history, the active id and the
    candidate set are untouched. *)
Theorem generate_without_processed_product_is_refused
    (concept : string) (hasReference : bool) (posterText : string)
    (w : World) (st : AppState) :
  (forall p, In p (products st) -> truthy_opt (processed p) = false) ->
  let done := exec (Generate concept hasReference posterText) w st in
  awaited (Generate concept hasReference posterText) w st = None
  /\ snd done = []
  /\ fst done =
       setError (Some "Please upload and process at least one product image.") st
  /\ error (fst done) = Some "Please upload and process at least one product image."
  /\ posters (fst done) = posters st
  /\ activePosterId (fst done) = activePosterId st
  /\ refinementVariations (fst done) = refinementVariations st.
Proof.
  intros Hnone done. subst done.
  assert (Hbegin : handleGenerate_begin concept hasReference posterText st =
                   (setError (Some "Please upload and process at least one product image.") st,
                    None)).
  { unfold handleGenerate_begin. now rewrite (no_processed_product _ Hnone). }
  assert (Hawaited : awaited (Generate concept hasReference posterText) w st = None).
  { cbn [awaited]. now rewrite Hbegin. }
  unfold exec. rewrite Hawaited. cbn [fst snd clicked].
  rewrite step_same_active by (cbn [handle]; now rewrite Hbegin).
  cbn [handle]. rewrite Hbegin. now repeat split.
Qed.

Lemma exec_unresolved (c : Command) (w : World) (st : AppState) :
  edits_active c = true ->
  find_poster (activePosterId st) (posters st) = None ->
  awaited c w st = None /\ exec c w st = (st, []).
Proof.
  intros Hc Hfind.
  assert (Hawaited : awaited c w st = None).
  { destruct c; try discriminate; cbn [awaited];
      unfold handleRefine_begin, handleUpscale_begin, handleExpand_begin;
      now rewrite Hfind. }
  assert (Hclick : handle (clicked c) st = st).
  { destruct c; try discriminate; cbn [clicked handle];
      unfold handleRefine_begin, handleUpscale_begin, handleExpand_begin;
      now rewrite Hfind. }
  split; [exact Hawaited|].
  unfold exec. rewrite Hawaited.
  rewrite step_same_active by now rewrite Hclick.
  now rewrite Hclick.
Qed.

(** C10.  A refine, upscale or expand command issued while the active id
    names no member of the history (it is unset, or its version is gone)
    does nothing: the handler returns at its first line, nothing is awaited,
    no call reaches the image service and the state is the one it found.
    The display does not share that lookup: in the same state it falls back
    to the first entry of the history. *)
Theorem commands_on_unresolved_active_do_nothing (c : Command) (w : World)
    (st : AppState) :
  edits_active c = true ->
  find_poster (activePosterId st) (posters st) = None ->
  awaited c w st = None
  /\ exec c w st = (st, [])
  /\ activePoster st = nth_error (posters st) 0.
Proof.
  intros Hc Hfind.
  destruct (exec_unresolved c w st Hc Hfind) as [Hawaited Hexec].
  repeat split; try assumption.
  unfold activePoster. rewrite Hfind. now destruct (nth_error _ _).
Qed.

(** ** The displayed poster *)

(** C6.  The poster handed to the display is a member of the history whose
    id is the active id whenever the history has such a member; when it has
    none (the active id is unset or names no member) it is the entry at
    position 0; and it is absent exactly when the history is empty. *)
Theorem displayed_poster_is_active_or_newest (st : AppState) :
  ((exists q, In q (posters st) /\ Some (id q) = activePosterId st) ->
   exists p, activePoster st = Some p /\ In p (posters st)
             /\ Some (id p) = activePosterId st)
  /\ ((forall q, In q (posters st) -> Some (id q) <> activePosterId st) ->
      activePoster st = nth_error (posters st) 0)
  /\ (activePoster st = None <-> posters st = []).
Proof.
  unfold activePoster. repeat split.
  - intros [q [Hin Hid]].
    destruct (find_poster (activePosterId st) (posters st)) as [p|] eqn:Hfind.
    + exists p. split; [reflexivity|]. now apply find_poster_some.
    + exfalso. exact (proj1 (find_poster_none _ _) Hfind q Hin Hid).
  - intro Hnone. apply find_poster_none in Hnone. rewrite Hnone.
    now destruct (nth_error _ _).
  - destruct (find_poster (activePosterId st) (posters st)) as [p|] eqn:Hfind;
      [discriminate|].
    destruct (posters st); [reflexivity | discriminate].
  - intros ->. reflexivity.
Qed.

(** ** Selecting a version *)

(** C7, as the code has it.  Selecting an id stores it as the active id
    whether or not the history holds it; the history, the candidate set and
    the error are untouched, and the pending adjustment goes back to the
    baseline when the id differs from the one before.  For an id the
    history does not hold, the stored id resolves to no member and the
    display falls back to the entry at position 0.  The gallery calls the
    setter only with the id of one of the first two entries of the history,
    and then the active id resolves to a member; a slot that shows nothing
    cannot be clicked. *)
Theorem select_poster_stores_any_id (posterId : string) (st : AppState) :
  activePosterId (step (SelectPoster posterId) st) = Some posterId
  /\ posters (step (SelectPoster posterId) st) = posters st
  /\ refinementVariations (step (SelectPoster posterId) st) = refinementVariations st
  /\ error (step (SelectPoster posterId) st) = error st
  /\ pendingFilters (step (SelectPoster posterId) st) =
       (if same_id (activePosterId st) (Some posterId)
        then pendingFilters st else DEFAULT_FILTERS)
  /\ ((forall p, In p (posters st) -> id p <> posterId) ->
      find_poster (activePosterId (step (SelectPoster posterId) st))
                  (posters (step (SelectPoster posterId) st)) = None
      /\ activePoster (step (SelectPoster posterId) st) = nth_error (posters st) 0)
  /\ (forall slot poster,
        PosterGallery.shown slot st = Some poster ->
        PosterGallery.click slot st = step (SelectPoster (id poster)) st
        /\ exists q,
             find_poster (activePosterId (PosterGallery.click slot st))
                         (posters (PosterGallery.click slot st)) = Some q
             /\ In q (posters st))
  /\ (forall slot,
        PosterGallery.shown slot st = None -> PosterGallery.click slot st = st).
Proof.
  assert (Hfields : activePosterId (step (SelectPoster posterId) st) = Some posterId
                    /\ posters (step (SelectPoster posterId) st) = posters st).
  { unfold step. now rewrite commit_activePosterId, commit_posters. }
  destruct Hfields as [Hactive Hposters].
  repeat split.
  - exact Hactive.
  - exact Hposters.
  - unfold step. now rewrite commit_refinementVariations.
  - unfold step. now rewrite commit_error.
  - unfold step. now rewrite commit_pendingFilters.
  - rewrite Hactive, Hposters. apply find_poster_none.
    intros p Hin Heq. apply (H p Hin). congruence.
  - unfold activePoster. rewrite Hactive, Hposters.
    replace (find_poster (Some posterId) (posters st)) with (@None Poster).
    + now destruct (nth_error _ _).
    + symmetry. apply find_poster_none.
      intros p Hin Heq. apply (H p Hin). congruence.
  - unfold PosterGallery.click. now rewrite H.
  - unfold PosterGallery.click. rewrite H.
    unfold step. rewrite commit_activePosterId, commit_posters.
    cbn [handle activePosterId posters setActivePosterId].
    assert (Hin : In poster (posters st)).
    { unfold PosterGallery.shown in H. apply nth_error_In in H.
      rewrite <- (firstn_skipn 2 (posters st)). apply in_or_app. now left. }
    destruct (find_poster (Some (id poster)) (posters st)) as [q|] eqn:Hfind.
    + exists q. split; [reflexivity|]. now apply find_poster_some in Hfind.
    + exfalso. exact (proj1 (find_poster_none _ _) Hfind poster Hin eq_refl).
  - intros slot Hnone. unfold PosterGallery.click. now rewrite Hnone.
Qed.

(** ** The pending adjustment *)

Lemma applyFilters_resolved canvas now st active :
  find_poster (activePosterId st) (posters st) = Some active ->
  applyFilters canvas now st =
  step (ApplyFiltersLoaded {| filter_poster := active;
                              filter_values := pendingFilters st |} canvas now) st.
Proof.
  intro Hfind. unfold applyFilters, handleApplyFilters_begin. rewrite Hfind.
  cbn [snd]. rewrite (step_same_active ApplyFiltersClicked st);
    cbn [handle]; unfold handleApplyFilters_begin; now rewrite Hfind.
Qed.

(** C8.  After any event that changes the active id, the pending adjustment
    is the baseline, whatever it was before.  Applying the pending
    adjustment to a resolving active poster, on a canvas that gives a
    context, pushes exactly one new version, drawn from the active poster
    with the pending brightness, contrast and saturation as the canvas
    filter and the pending tint as overlay, makes it active and leaves the
    pending adjustment at the baseline. *)
Theorem pending_adjustment_resets :
  (forall ev st,
     activePosterId (step ev st) <> activePosterId st ->
     pendingFilters (step ev st) = DEFAULT_FILTERS)
  /\ (forall canvas now st active,
        find_poster (activePosterId st) (posters st) = Some active ->
        hasContext canvas = true ->
        let f := pendingFilters st in
        let committed :=
          {| id := "poster-" ++ show now;
             src := toDataURL canvas
                      ([SetFilter (brightness f) (contrast f) (saturate f);
                        DrawImage (src active)] ++ tint_overlay (tint f));
             prompt := "Applied image adjustments" |} in
        pendingFilters (applyFilters canvas now st) = DEFAULT_FILTERS
        /\ posters (applyFilters canvas now st) = committed :: firstn 1 (posters st)
        /\ activePosterId (applyFilters canvas now st) = Some (id committed)).
Proof.
  split.
  - intros ev st Hchanged. unfold step in *.
    rewrite commit_activePosterId in Hchanged. rewrite commit_pendingFilters.
    destruct (same_id _ _) eqn:E; [|reflexivity].
    apply same_id_eq in E. congruence.
  - intros canvas now st active Hfind Hctx f committed.
    rewrite (applyFilters_resolved canvas now st Hfind).
    unfold step.
    rewrite commit_pendingFilters, commit_posters, commit_activePosterId.
    cbn [handle]. unfold handleApplyFilters_loaded. rewrite Hctx.
    repeat split.
    now destruct (same_id _ _).
Qed.

(** ** Choosing a variation *)

(** C3.  When the selection names a candidate of the set, confirming puts
    that candidate, and nothing else, in front of the first entry of the
    history, makes it the active and displayed poster, and leaves the
    candidate set and the selection empty. *)
Theorem confirm_pushes_selected_candidate (ui : PosterDisplay.Ui) (selected : Poster) :
  find_poster (PosterDisplay.selectedVariationId ui)
              (refinementVariations (PosterDisplay.app ui)) = Some selected ->
  let ui' := PosterDisplay.handleConfirm ui in
  In selected (refinementVariations (PosterDisplay.app ui))
  /\ posters (PosterDisplay.app ui') =
       selected :: firstn 1 (posters (PosterDisplay.app ui))
  /\ activePosterId (PosterDisplay.app ui') = Some (id selected)
  /\ activePoster (PosterDisplay.app ui') = Some selected
  /\ refinementVariations (PosterDisplay.app ui') = []
  /\ PosterDisplay.selectedVariationId ui' = None.
Proof.
  intros Hsel ui'. subst ui'.
  unfold PosterDisplay.handleConfirm. rewrite Hsel.
  cbn [PosterDisplay.app PosterDisplay.selectedVariationId].
  assert (Hposters : posters (step (ConfirmRefinement selected) (PosterDisplay.app ui))
                     = selected :: firstn 1 (posters (PosterDisplay.app ui))).
  { now rewrite step_posters. }
  assert (Hactive : activePosterId (step (ConfirmRefinement selected) (PosterDisplay.app ui))
                    = Some (id selected)).
  { unfold step. now rewrite commit_activePosterId. }
  repeat split.
  - now apply find_poster_some in Hsel.
  - exact Hposters.
  - exact Hactive.
  - unfold activePoster. rewrite Hposters, Hactive. now rewrite find_poster_head.
  - unfold step. now rewrite commit_refinementVariations.
Qed.

(** C4.  Whatever a refine returned, and whichever candidate the chooser
    had selected, cancelling right after it leaves no candidate and no
    selection, and the history and the active id are those of the state in
    which the refine was requested. *)
Theorem cancel_restores_state_before_refine
    (refinementPrompt : string) (w : World) (st : AppState)
    (selection : option string) :
  let refined := fst (exec (Refine refinementPrompt) w st) in
  let choosing :=
    PosterDisplay.preselect
      {| PosterDisplay.app := refined;
         PosterDisplay.selectedVariationId := selection |} in
  let ui' := PosterDisplay.handleCancel choosing in
  posters (PosterDisplay.app ui') = posters st
  /\ activePosterId (PosterDisplay.app ui') = activePosterId st
  /\ refinementVariations (PosterDisplay.app ui') = []
  /\ PosterDisplay.selectedVariationId ui' = None.
Proof.
  intros refined choosing ui'.
  assert (Happ : PosterDisplay.app choosing = refined).
  { subst choosing. unfold PosterDisplay.preselect. cbn [PosterDisplay.app].
    destruct (refinementVariations refined); [reflexivity|].
    now destruct (truthy_opt _). }
  subst ui'. unfold PosterDisplay.handleCancel.
  cbn [PosterDisplay.app PosterDisplay.selectedVariationId]. rewrite Happ.
  assert (Hrefined : posters refined = posters st
                     /\ activePosterId refined = activePosterId st).
  { subst refined.
    destruct (find_poster (activePosterId st) (posters st)) as [active|] eqn:Hfind.
    - destruct (exec_refine refinementPrompt w st Hfind) as (_ & Hp & Ha & _).
      now split.
    - destruct (exec_unresolved (Refine refinementPrompt) w st eq_refl Hfind)
        as [_ Hexec].
      rewrite Hexec. now split. }
  destruct Hrefined as [Hp Ha].
  unfold step.
  rewrite commit_posters, commit_activePosterId, commit_refinementVariations.
  cbn [handle]. unfold handleCancelRefinement. now repeat split.
Qed.

(** ** The statements at concrete inputs *)

(** The session of [Sample.session] ends with the confirmed candidate in
    front of the upscaled poster; the generated poster is gone. *)
Example session_history :
  posters (run Sample.session Sample.ready) = [Sample.candidate1; Sample.v2]
  /\ activePosterId (run Sample.session Sample.ready) = Some "poster-variation-3000-0".
Proof. split; reflexivity. Qed.

Lemma history_keeps_newest_two_witness :
  (length (posters Sample.ready) <= 2)%nat
  /\ (length (posters (run Sample.session Sample.ready)) <= 2)%nat
  /\ posters (run Sample.session Sample.ready) =
       firstn 2 (produced_all Sample.session ++ posters Sample.ready)
  /\ nth_error (posters (run Sample.session Sample.ready)) 0 = Some Sample.candidate1.
Proof.
  assert (H : (length (posters Sample.ready) <= 2)%nat) by (simpl; lia).
  split; [exact H|].
  destruct (history_keeps_newest_two Sample.session Sample.ready H)
    as (Hlen & Heq & Hnewest & _).
  split; [exact Hlen|]. split; [exact Heq|].
  apply (Hnewest Sample.candidate1 [Sample.v2; Sample.v1]). reflexivity.
Defined.

(** C2 as stated fails: the first variation request returned an image and
    the second was rejected by the provider, so exactly one request failed;
    the refine ends with an error and no candidate. *)
Lemma refine_fails_when_one_request_is_rejected :
  Gemini.generateVariation (Sample.reply_with "CCCC") = Fulfilled (Some "CCCC")
  /\ thrown (Gemini.generateVariation Sample.reply_rejected)
     = Some (Error "429 RESOURCE_EXHAUSTED")
  /\ find_poster (activePosterId Sample.viewing) (posters Sample.viewing)
     = Some Sample.v1
  /\ refinementVariations
       (fst (exec (Refine "make it blue")
               (Sample.world (Sample.reply_with "CCCC") Sample.reply_rejected)
               Sample.viewing)) = []
  /\ error
       (fst (exec (Refine "make it blue")
               (Sample.world (Sample.reply_with "CCCC") Sample.reply_rejected)
               Sample.viewing)) = Some "Failed to refine the poster.".
Proof. repeat split; reflexivity. Qed.

Lemma refine_keeps_images_of_answered_requests_witness :
  find_poster (activePosterId Sample.viewing) (posters Sample.viewing) = Some Sample.v1
  /\ refinementVariations
       (fst (exec (Refine "make it blue")
               (Sample.world (Sample.reply_with "CCCC") Sample.reply_without_image)
               Sample.viewing)) = [Sample.candidate1]
  /\ error
       (fst (exec (Refine "make it blue")
               (Sample.world (Sample.reply_with "CCCC") Sample.reply_without_image)
               Sample.viewing)) = None.
Proof.
  split; [reflexivity|].
  exact (proj2 (refine_keeps_images_of_answered_requests "make it blue"
                  (Sample.world (Sample.reply_with "CCCC") Sample.reply_without_image)
                  Sample.viewing (active := Sample.v1) eq_refl)).
Defined.

Lemma confirm_pushes_selected_candidate_witness :
  find_poster (PosterDisplay.selectedVariationId Sample.chooser)
              (refinementVariations (PosterDisplay.app Sample.chooser))
  = Some Sample.candidate2
  /\ posters (PosterDisplay.app (PosterDisplay.handleConfirm Sample.chooser))
     = [Sample.candidate2; Sample.v1]
  /\ refinementVariations (PosterDisplay.app (PosterDisplay.handleConfirm Sample.chooser))
     = [].
Proof.
  split; [reflexivity|].
  destruct (confirm_pushes_selected_candidate Sample.chooser
              (selected := Sample.candidate2) eq_refl)
    as (_ & Hposters & _ & _ & Hvars & _).
  split; [exact Hposters | exact Hvars].
Defined.

Lemma cancel_restores_state_before_refine_witness :
  refinementVariations
    (fst (exec (Refine "make it blue")
            (Sample.world (Sample.reply_with "CCCC") (Sample.reply_with "DDDD"))
            Sample.viewing)) = [Sample.candidate1; Sample.candidate2]
  /\ posters
       (PosterDisplay.app
          (PosterDisplay.handleCancel
             (PosterDisplay.preselect
                {| PosterDisplay.app :=
                     fst (exec (Refine "make it blue")
                            (Sample.world (Sample.reply_with "CCCC")
                               (Sample.reply_with "DDDD"))
                            Sample.viewing);
                   PosterDisplay.selectedVariationId := None |})))
     = posters Sample.viewing.
Proof.
  split; [reflexivity|].
  exact (proj1 (cancel_restores_state_before_refine "make it blue"
                  (Sample.world (Sample.reply_with "CCCC") (Sample.reply_with "DDDD"))
                  Sample.viewing None)).
Defined.

Lemma failed_command_restores_state_witness :
  offered (Refine "make it red") Sample.viewing = true
  /\ failure (Refine "make it red")
       (Sample.world Sample.reply_without_image Sample.reply_rejected)
       Sample.viewing = Some (Some (Error "Failed to refine the poster."))
  /\ error
       (fst (exec (Refine "make it red")
               (Sample.world Sample.reply_without_image Sample.reply_rejected)
               Sample.viewing)) = Some "Failed to refine the poster."
  /\ posters
       (fst (exec (Refine "make it red")
               (Sample.world Sample.reply_without_image Sample.reply_rejected)
               Sample.viewing)) = [Sample.v1]
  /\ refinementVariations
       (fst (exec (Refine "make it red")
               (Sample.world Sample.reply_without_image Sample.reply_rejected)
               Sample.viewing)) = refinementVariations Sample.viewing.
Proof.
  split; [reflexivity|]. split; [reflexivity|].
  destruct (@failed_command_restores_state (Refine "make it red")
              (Sample.world Sample.reply_without_image Sample.reply_rejected)
              Sample.viewing (Error "Failed to refine the poster.") eq_refl eq_refl)
    as (Herr & Hposters & _ & Hvars).
  split; [exact Herr|]. split; [exact Hposters | exact Hvars].
Defined.

Lemma displayed_poster_is_active_or_newest_witness :
  (exists p, activePoster Sample.viewing2 = Some p
             /\ In p (posters Sample.viewing2)
             /\ Some (id p) = activePosterId Sample.viewing2)
  /\ activePoster Sample.dangling = nth_error (posters Sample.dangling) 0
  /\ (activePoster initialState = None <-> posters initialState = []).
Proof.
  split; [|split].
  - apply (proj1 (displayed_poster_is_active_or_newest Sample.viewing2)).
    exists Sample.v2. split; [left; reflexivity | reflexivity].
  - apply (proj1 (proj2 (displayed_poster_is_active_or_newest Sample.dangling))).
    intros q [<-|[<-|[]]]; discriminate.
  - apply (proj2 (proj2 (displayed_poster_is_active_or_newest initialState))).
Defined.

(** C7 as stated fails: the history holds one poster, which is active, and
    a warm adjustment is pending; selecting an id the history does not hold
    replaces the active id by one that resolves to no member, and resets the
    pending adjustment. *)
Lemma select_absent_id_is_not_a_no_op :
  find_poster (Some "poster-9999") (posters Sample.adjusting) = None
  /\ activePosterId Sample.adjusting = Some "poster-1000"
  /\ activePosterId (step (SelectPoster "poster-9999") Sample.adjusting)
     = Some "poster-9999"
  /\ find_poster (activePosterId (step (SelectPoster "poster-9999") Sample.adjusting))
                 (posters (step (SelectPoster "poster-9999") Sample.adjusting)) = None
  /\ pendingFilters Sample.adjusting = Sample.warm
  /\ pendingFilters (step (SelectPoster "poster-9999") Sample.adjusting)
     = DEFAULT_FILTERS.
Proof. repeat split; reflexivity. Qed.

Lemma select_poster_stores_any_id_witness :
  (find_poster (activePosterId (step (SelectPoster "poster-500") Sample.viewing2))
               (posters (step (SelectPoster "poster-500") Sample.viewing2)) = None
   /\ activePoster (step (SelectPoster "poster-500") Sample.viewing2)
      = nth_error (posters Sample.viewing2) 0)
  /\ PosterGallery.click PosterGallery.Previous Sample.viewing2
     = step (SelectPoster "poster-1000") Sample.viewing2.
Proof.
  destruct (select_poster_stores_any_id "poster-500" Sample.viewing2)
    as (_ & _ & _ & _ & _ & Habsent & _).
  destruct (select_poster_stores_any_id "poster-1000" Sample.viewing2)
    as (_ & _ & _ & _ & _ & _ & Hgallery & _).
  split.
  - apply Habsent. intros p [<-|[<-|[]]]; discriminate.
  - exact (proj1 (Hgallery PosterGallery.Previous Sample.v1 eq_refl)).
Defined.

Lemma pending_adjustment_resets_witness :
  (activePosterId (step (SelectPoster "poster-2000") Sample.adjusting)
   <> activePosterId Sample.adjusting
   /\ pendingFilters (step (SelectPoster "poster-2000") Sample.adjusting)
      = DEFAULT_FILTERS)
  /\ (pendingFilters (applyFilters Sample.canvas 4000 Sample.adjusting) = DEFAULT_FILTERS
      /\ posters (applyFilters Sample.canvas 4000 Sample.adjusting)
         = [ {| id := "poster-4000";
                src := "data:image/jpeg;base64,tinted:#ff8c00";
                prompt := "Applied image adjustments" |};
             Sample.v1 ]).
Proof.
  destruct pending_adjustment_resets as [Hchanged Happlied].
  assert (Hne : activePosterId (step (SelectPoster "poster-2000") Sample.adjusting)
                <> activePosterId Sample.adjusting) by discriminate.
  split.
  - split; [exact Hne | exact (Hchanged _ _ Hne)].
  - destruct (Happlied Sample.canvas 4000%N Sample.adjusting Sample.v1 eq_refl eq_refl)
      as (Hpending & Hposters & _).
    split; [exact Hpending | exact Hposters].
Defined.

Lemma generate_without_processed_product_is_refused_witness :
  (forall p, In p (products Sample.not_ready) -> truthy_opt (processed p) = false)
  /\ snd (exec (Generate "neon sign" false "")
            (Sample.world (Sample.reply_with "AAAA") Sample.reply_rejected)
            Sample.not_ready) = []
  /\ error (fst (exec (Generate "neon sign" false "")
                   (Sample.world (Sample.reply_with "AAAA") Sample.reply_rejected)
                   Sample.not_ready))
     = Some "Please upload and process at least one product image.".
Proof.
  assert (H : forall p, In p (products Sample.not_ready) ->
                        truthy_opt (processed p) = false).
  { intros p [<-|[]]. reflexivity. }
  split; [exact H|].
  destruct (generate_without_processed_product_is_refused "neon sign" false ""
              (Sample.world (Sample.reply_with "AAAA") Sample.reply_rejected)
              Sample.not_ready H)
    as (_ & Hcalls & _ & Herr & _).
  split; [exact Hcalls | exact Herr].
Defined.

Lemma commands_on_unresolved_active_do_nothing_witness :
  find_poster (activePosterId Sample.dangling) (posters Sample.dangling) = None
  /\ exec (Upscale Scale4)
       (Sample.world (Sample.reply_with "EEEE") (Sample.reply_with "FFFF"))
       Sample.dangling = (Sample.dangling, [])
  /\ activePoster Sample.dangling = Some Sample.v2.
Proof.
  split; [reflexivity|].
  destruct (commands_on_unresolved_active_do_nothing (Upscale Scale4)
              (Sample.world (Sample.reply_with "EEEE") (Sample.reply_with "FFFF"))
              Sample.dangling eq_refl eq_refl)
    as (_ & Hexec & Hshown).
  split; [exact Hexec | exact Hshown].
Defined.


(** * Further properties *)

(** ** Strings *)

Lemma split_not_nil sep s : split sep s <> [].
Proof.
  destruct s as [|c rest]; cbn [split]; [discriminate|].
  destruct (Ascii.eqb c sep); [discriminate|].
  destruct (split sep rest); discriminate.
Qed.

Lemma split_without sep s : occurs sep s = false -> split sep s = [s].
Proof.
  induction s as [|c rest IH]; cbn [split occurs]; [reflexivity|].
  destruct (Ascii.eqb c sep); [discriminate|].
  intro H. now rewrite (IH H).
Qed.

Lemma split_at_first sep a b :
  occurs sep a = false ->
  split sep (a ++ String sep b) = a :: split sep b.
Proof.
  induction a as [|c rest IH]; cbn [split occurs String.append].
  - intros _. now rewrite Ascii.eqb_refl.
  - destruct (Ascii.eqb c sep); [discriminate|].
    intro H. now rewrite (IH H).
Qed.

Lemma append_assoc (a b c : string) : ((a ++ b) ++ c = a ++ (b ++ c))%string.
Proof. induction a as [|x a IH]; cbn; [reflexivity | now rewrite IH]. Qed.

Lemma occurs_append sep a b :
  occurs sep (a ++ b) = occurs sep a || occurs sep b.
Proof.
  induction a as [|c a IH]; cbn [occurs String.append]; [reflexivity|].
  now destruct (Ascii.eqb c sep).
Qed.

(** What is sent back for a data URL the application built: the payload up
    to its first comma, so the payload itself when it has none. *)
Lemma after_comma_jpeg payload :
  after_comma ("data:image/jpeg;base64," ++ payload) =
  Some (hd EmptyString (split "," payload)).
Proof.
  unfold after_comma.
  change ("data:image/jpeg;base64," ++ payload)%string
    with ("data:image/jpeg;base64" ++ String "," payload)%string.
  rewrite split_at_first by reflexivity.
  pose proof (split_not_nil "," payload).
  now destruct (split "," payload).
Qed.

Lemma after_comma_png payload :
  after_comma ("data:image/png;base64," ++ payload) =
  Some (hd EmptyString (split "," payload)).
Proof.
  unfold after_comma.
  change ("data:image/png;base64," ++ payload)%string
    with ("data:image/png;base64" ++ String "," payload)%string.
  rewrite split_at_first by reflexivity.
  pose proof (split_not_nil "," payload).
  now destruct (split "," payload).
Qed.

(** X1.  The image an upscale, expand or refine sends to the service is
    the payload of the active poster's data URL: for a poster whose source
    is "data:image/jpeg;base64," followed by a payload without a comma (what
    generate, upscale and expand build from the service's answer), the call
    carries exactly that payload, as image/jpeg. *)
Theorem command_sends_back_the_payload (c : Command) (w : World) (st : AppState)
    (active : Poster) (payload : string) :
  edits_active c = true ->
  find_poster (activePosterId st) (posters st) = Some active ->
  src active = ("data:image/jpeg;base64," ++ payload)%string ->
  occurs "," payload = false ->
  snd (exec c w st) =
  call_with c {| base64 := Some payload; image_mimeType := "image/jpeg" |}.
Proof.
  intros Hc Hfind Hsrc Hcomma.
  assert (Hsent : after_comma (src active) = Some payload).
  { rewrite Hsrc, after_comma_jpeg. now rewrite split_without. }
  unfold exec.
  destruct c as [| refinementPrompt | scale | direction size];
    [discriminate| | |]; cbn [awaited call_with].
  - unfold handleRefine_begin. rewrite Hfind. cbn [snd].
    unfold handleRefine_calls. cbn [refine_poster refine_prompt].
    now rewrite Hsent.
  - unfold handleUpscale_begin. rewrite Hfind.
    cbn [snd handleImageModification_begin mod_call]. now rewrite Hsent.
  - unfold handleExpand_begin. rewrite Hfind.
    cbn [snd handleImageModification_begin mod_call]. now rewrite Hsent.
Qed.

(** ** The service's answers *)

Lemma first_inline_data_some ps d :
  Gemini.first_inline_data ps = Some d <->
  exists before p after blob,
    ps = before ++ p :: after
    /\ Forall (fun q => Gemini.inlineData q = None) before
    /\ Gemini.inlineData p = Some blob
    /\ Gemini.data blob = d.
Proof.
  split.
  - induction ps as [|q ps IH]; cbn [Gemini.first_inline_data]; [discriminate|].
    destruct (Gemini.inlineData q) as [blob|] eqn:Hq.
    + intros [= <-]. exists [], q, ps, blob. now repeat split.
    + intro H. destruct (IH H) as (before & p & after & blob & -> & Hb & Hp & Hd).
      exists (q :: before), p, after, blob. repeat split; try assumption.
      now constructor.
  - intros (before & p & after & blob & -> & Hb & Hp & Hd).
    induction Hb as [|q before Hq _ IH]; cbn [Gemini.first_inline_data app].
    + rewrite Hp. now subst.
    + now rewrite Hq.
Qed.

Lemma image_or_throw_fulfilled reply none d :
  Gemini.image_or_throw reply none = Fulfilled d <-> first_image reply d.
Proof.
  unfold Gemini.image_or_throw, first_image. split.
  - destruct reply as [r|e]; cbn [bind]; [|discriminate].
    destruct (Gemini.first_inline_data (Gemini.response_parts r)) as [d'|] eqn:E;
      [|discriminate].
    intros [= <-]. apply first_inline_data_some in E.
    destruct E as (before & p & after & blob & H).
    now exists r, before, p, after, blob.
  - intros (r & before & p & after & blob & -> & Hparts & H).
    cbn [bind].
    assert (E : Gemini.first_inline_data (Gemini.response_parts r) = Some d).
    { apply first_inline_data_some. now exists before, p, after, blob. }
    now rewrite E.
Qed.

Lemma catch_rethrow_fulfilled {A} (body : Settled A) msg a :
  catch_rethrow body msg = Fulfilled a <-> body = Fulfilled a.
Proof. destruct body; cbn; split; congruence. Qed.

Lemma catch_rethrow_rejected {A} (body : Settled A) msg err :
  catch_rethrow body msg = Rejected err -> err = Error msg.
Proof. destruct body; cbn; congruence. Qed.

Lemma single_image_fulfilled reply none msg d :
  catch_rethrow (Gemini.image_or_throw reply none) msg = Fulfilled d <->
  first_image reply d.
Proof. rewrite catch_rethrow_fulfilled. apply image_or_throw_fulfilled. Qed.

(** X2.  Each of the four single-image service functions returns the data
    of the first part of the first candidate that carries inline data,
    skipping the parts before it (text) and ignoring what follows; it
    succeeds only on such a reply.  Whenever it fails, whether the request
    was rejected or the answer held no image, the error it throws carries
    the function's own fixed message, never the provider's. *)
Theorem service_returns_first_inline_image (reply : Gemini.Reply) :
  (forall d, Gemini.removeBackground reply = Fulfilled d <-> first_image reply d)
  /\ (forall d, Gemini.generatePoster reply = Fulfilled d <-> first_image reply d)
  /\ (forall scale d,
        Gemini.upscalePoster scale reply = Fulfilled d <-> first_image reply d)
  /\ (forall d, Gemini.expandPoster reply = Fulfilled d <-> first_image reply d)
  /\ (forall err, Gemini.removeBackground reply = Rejected err ->
        err = Error "Failed to remove background from the image.")
  /\ (forall err, Gemini.generatePoster reply = Rejected err ->
        err = Error "Failed to generate the poster.")
  /\ (forall scale err, Gemini.upscalePoster scale reply = Rejected err ->
        err = Error ("Failed to upscale the poster " ++ show (scale_value scale) ++ "x."))
  /\ (forall err, Gemini.expandPoster reply = Rejected err ->
        err = Error "Failed to expand the poster.").
Proof.
  unfold Gemini.removeBackground, Gemini.generatePoster, Gemini.upscalePoster,
    Gemini.expandPoster, Gemini.performImageModification.
  split; [intro d; apply single_image_fulfilled|].
  split; [intro d; apply single_image_fulfilled|].
  split; [intros scale d; apply single_image_fulfilled|].
  split; [intro d; apply single_image_fulfilled|].
  split; [intros err H; exact (catch_rethrow_rejected _ _ H)|].
  split; [intros err H; exact (catch_rethrow_rejected _ _ H)|].
  split; [intros scale err H; exact (catch_rethrow_rejected _ _ H)|].
  intros err H; exact (catch_rethrow_rejected _ _ H).
Qed.

(** ** The candidate set *)

Lemma refinePoster_length reply1 reply2 images :
  Gemini.refinePoster reply1 reply2 = Fulfilled images ->
  (1 <= length images <= 2)%nat.
Proof.
  destruct reply1 as [r1|e1], reply2 as [r2|e2].
  - rewrite refinePoster_replies.
    destruct (image_of r1), (image_of r2); intros [= <-]; cbn; lia.
  - rewrite refinePoster_rejected by (right; discriminate). discriminate.
  - rewrite refinePoster_rejected by (left; discriminate). discriminate.
  - rewrite refinePoster_rejected by (left; discriminate). discriminate.
Qed.

Lemma variations_from_length index clock refinementPrompt images :
  length (variations_from index clock refinementPrompt images) = length images.
Proof.
  revert index. induction images as [|b rest IH]; intro index; cbn; [reflexivity|].
  now rewrite IH.
Qed.

Lemma step_variations ev st :
  refinementVariations (step ev st) = refinementVariations (handle ev st).
Proof. apply step_observed. Qed.

Lemma step_variations_bound ev st :
  (length (refinementVariations st) <= 2)%nat ->
  (length (refinementVariations (step ev st)) <= 2)%nat.
Proof.
  intro H. rewrite step_variations.
  destruct ev; cbn [handle]; try exact H.
  - unfold handleGenerate_begin. now destruct (length _ =? 0)%nat.
  - unfold handleGenerate_settled.
    destruct (handleGenerate_try _ _ _ _); cbn; [|exact H].
    now destruct (gen_previewOpen _).
  - unfold handleRefine_begin. destruct (find_poster _ _); cbn; [lia | exact H].
  - unfold handleRefine_settled.
    destruct (Gemini.refinePoster _ _) as [images|] eqn:E; cbn; [|exact H].
    rewrite variations_from_length. apply (refinePoster_length _ _ E).
  - unfold handleUpscale_begin. now destruct (find_poster _ _).
  - unfold handleExpand_begin. now destruct (find_poster _ _).
  - unfold handleImageModification_settled.
    now destruct (handleImageModification_try _ _ _).
  - unfold handleApplyFilters_begin. now destruct (find_poster _ _).
  - unfold handleApplyFilters_loaded. now destruct (hasContext _).
  - cbn. lia.
  - cbn. lia.
  - unfold handlePreview. now destruct (find_poster _ _).
  - unfold handleOpenPosterCropModal. now destruct (find_poster _ _).
Qed.

(** X3.  The candidate set never holds more than two posters: whatever
    events reach the application, a set of at most two stays at most two.  A
    refine that settles successfully leaves one or two candidates; one that
    settles with a failure leaves the set as it found it. *)
Theorem candidates_never_exceed_two (evs : list Event) (st : AppState) :
  (length (refinementVariations st) <= 2)%nat ->
  (length (refinementVariations (run evs st)) <= 2)%nat
  /\ (forall p reply1 reply2 clock,
        match Gemini.refinePoster reply1 reply2 with
        | Fulfilled _ =>
            (1 <= length (refinementVariations
                            (step (RefineSettled p reply1 reply2 clock) st)) <= 2)%nat
        | Rejected _ =>
            refinementVariations (step (RefineSettled p reply1 reply2 clock) st)
            = refinementVariations st
        end).
Proof.
  intro H. split.
  - revert st H. induction evs as [|ev rest IH]; intros st H; [exact H|].
    change (run (ev :: rest) st) with (run rest (step ev st)).
    apply IH. now apply step_variations_bound.
  - intros p reply1 reply2 clock. rewrite step_variations.
    cbn [handle]. unfold handleRefine_settled.
    destruct (Gemini.refinePoster reply1 reply2) as [images|] eqn:E; cbn.
    + rewrite variations_from_length. apply (refinePoster_length _ _ E).
    + reflexivity.
Qed.

(** *** Telling the candidates apart *)

Lemma digits_without_dash (d : Decimal.uint) :
  occurs "-" (NilEmpty.string_of_uint d) = false.
Proof. induction d; cbn; assumption || reflexivity. Qed.

Lemma show_injective (a b : N) : show a = show b -> a = b.
Proof.
  unfold show. intro H.
  apply (f_equal NilEmpty.uint_of_string) in H.
  rewrite !NilEmpty.usu in H. injection H as H.
  apply (f_equal N.of_uint) in H. now rewrite !Unsigned.of_to in H.
Qed.

(** Two strings that end in a separator followed by a separator-free tail
    are equal only if the tails are. *)
Lemma tail_after_separator sep a b d1 d2 :
  occurs sep d1 = false -> occurs sep d2 = false ->
  (a ++ String sep d1 = b ++ String sep d2)%string -> d1 = d2.
Proof.
  intros H1 H2. revert b.
  induction a as [|x a IH]; intros [|y b]; cbn [String.append]; intro E.
  - now injection E.
  - injection E as _ E. subst d1.
    rewrite occurs_append in H1. cbn [occurs] in H1.
    rewrite Ascii.eqb_refl, orb_true_r in H1. discriminate.
  - injection E as _ E. subst d2.
    rewrite occurs_append in H2. cbn [occurs] in H2.
    rewrite Ascii.eqb_refl, orb_true_r in H2. discriminate.
  - injection E as _ E. now apply (IH b).
Qed.

Lemma candidate_id_injective i j clock p1 p2 b1 b2 :
  id (candidate i clock p1 b1) = id (candidate j clock p2 b2) -> i = j.
Proof.
  cbn [id candidate]. intro E.
  change ("-" ++ show (N.of_nat i))%string with (String "-" (show (N.of_nat i))) in E.
  change ("-" ++ show (N.of_nat j))%string with (String "-" (show (N.of_nat j))) in E.
  rewrite <- !append_assoc in E.
  apply tail_after_separator in E; try apply digits_without_dash.
  apply show_injective in E. now apply Nat2N.inj in E.
Qed.

Lemma variations_from_indexed index clock refinementPrompt images c :
  In c (variations_from index clock refinementPrompt images) ->
  exists j b, (index <= j)%nat /\ c = candidate j clock refinementPrompt b.
Proof.
  revert index. induction images as [|b rest IH]; intros index; cbn; [easy|].
  intros [<-|Hin].
  - exists index, b. split; [lia | reflexivity].
  - destruct (IH _ Hin) as (j & b' & Hj & ->). exists j, b'. split; [lia | reflexivity].
Qed.

Lemma variations_from_distinct index clock refinementPrompt images :
  NoDup (map id (variations_from index clock refinementPrompt images)).
Proof.
  revert index. induction images as [|b rest IH]; intro index; cbn [variations_from map].
  - constructor.
  - constructor; [|apply IH].
    intro Hin. apply in_map_iff in Hin as (c & Hid & Hc).
    apply variations_from_indexed in Hc as (j & b' & Hj & ->).
    change (id (candidate j clock refinementPrompt b')
            = id (candidate index clock refinementPrompt b)) in Hid.
    apply candidate_id_injective in Hid. lia.
Qed.

Lemma find_poster_unique (ps : list Poster) (c : Poster) :
  NoDup (map id ps) -> In c ps -> find_poster (Some (id c)) ps = Some c.
Proof.
  unfold find_poster. induction ps as [|q ps IH]; [easy|].
  cbn [map find same_id]. intros Hnd [->|Hin].
  - now rewrite String.eqb_refl.
  - inversion Hnd as [|x l Hnot Hnd']; subst.
    destruct (String.eqb (id q) (id c)) eqn:E.
    + apply String.eqb_eq in E. exfalso. apply Hnot. rewrite E. now apply in_map.
    + now apply IH.
Qed.

(** X4.  The candidates a refine produces have pairwise distinct ids, so
    the chooser cannot mix them up: clicking any candidate of the set and
    confirming pushes that very candidate in front of the first entry of the
    history, makes it active and empties the set and the selection. *)
Theorem clicked_candidate_is_the_one_confirmed
    (p : RefinePending) (reply1 reply2 : Gemini.Reply) (clock : nat -> N)
    (st : AppState) (images : list string) (selection : option string) (c : Poster) :
  Gemini.refinePoster reply1 reply2 = Fulfilled images ->
  In c (refinementVariations (step (RefineSettled p reply1 reply2 clock) st)) ->
  let ui' :=
    PosterDisplay.handleConfirm
      (PosterDisplay.select (id c)
         {| PosterDisplay.app := step (RefineSettled p reply1 reply2 clock) st;
            PosterDisplay.selectedVariationId := selection |}) in
  NoDup (map id (refinementVariations (step (RefineSettled p reply1 reply2 clock) st)))
  /\ posters (PosterDisplay.app ui') = c :: firstn 1 (posters st)
  /\ activePosterId (PosterDisplay.app ui') = Some (id c)
  /\ refinementVariations (PosterDisplay.app ui') = []
  /\ PosterDisplay.selectedVariationId ui' = None.
Proof.
  intros Hok Hin ui'.
  assert (Hvars : refinementVariations (step (RefineSettled p reply1 reply2 clock) st)
                  = variations_from 0 clock (refine_prompt p) images).
  { rewrite step_variations. cbn [handle]. unfold handleRefine_settled.
    now rewrite Hok. }
  assert (Hposters : posters (step (RefineSettled p reply1 reply2 clock) st) = posters st).
  { now rewrite step_posters. }
  assert (Hnd : NoDup (map id (refinementVariations
                                 (step (RefineSettled p reply1 reply2 clock) st)))).
  { rewrite Hvars. apply variations_from_distinct. }
  split; [exact Hnd|].
  subst ui'. unfold PosterDisplay.handleConfirm, PosterDisplay.select.
  cbn [PosterDisplay.app PosterDisplay.selectedVariationId].
  rewrite (find_poster_unique _ c Hnd Hin).
  cbn [PosterDisplay.app PosterDisplay.selectedVariationId].
  split; [rewrite step_posters; cbn [produced]; now rewrite Hposters|].
  observe. cbn [handle]. unfold handleConfirmRefinement.
  cbn [activePosterId refinementVariations setRefinementVariations setActivePosterId].
  now repeat split.
Qed.

(** X5.  Confirming without having clicked a candidate confirms the first
    one: when a refine has settled successfully and nothing is selected, the
    chooser's effect selects candidate 0, built from the first answer that
    held an image, and confirm pushes it. *)
Theorem confirm_without_click_takes_first_candidate
    (p : RefinePending) (reply1 reply2 : Gemini.Reply) (clock : nat -> N)
    (st : AppState) (images : list string) (selection : option string) :
  Gemini.refinePoster reply1 reply2 = Fulfilled images ->
  truthy_opt selection = false ->
  let ui' :=
    PosterDisplay.handleConfirm
      (PosterDisplay.preselect
         {| PosterDisplay.app := step (RefineSettled p reply1 reply2 clock) st;
            PosterDisplay.selectedVariationId := selection |}) in
  exists first rest,
    images = first :: rest
    /\ posters (PosterDisplay.app ui') =
         candidate 0 clock (refine_prompt p) first :: firstn 1 (posters st)
    /\ activePosterId (PosterDisplay.app ui') =
         Some (id (candidate 0 clock (refine_prompt p) first))
    /\ refinementVariations (PosterDisplay.app ui') = [].
Proof.
  intros Hok Hsel ui'.
  assert (Hvars : refinementVariations (step (RefineSettled p reply1 reply2 clock) st)
                  = variations_from 0 clock (refine_prompt p) images).
  { rewrite step_variations. cbn [handle]. unfold handleRefine_settled.
    now rewrite Hok. }
  assert (Hposters : posters (step (RefineSettled p reply1 reply2 clock) st) = posters st).
  { now rewrite step_posters. }
  pose proof (refinePoster_length _ _ Hok) as Hlen.
  destruct images as [|first rest]; [cbn in Hlen; lia|].
  exists first, rest. split; [reflexivity|].
  subst ui'. unfold PosterDisplay.preselect.
  cbn [PosterDisplay.app PosterDisplay.selectedVariationId].
  rewrite Hvars. cbn [variations_from]. rewrite Hsel.
  unfold PosterDisplay.handleConfirm.
  cbn [PosterDisplay.app PosterDisplay.selectedVariationId].
  rewrite Hvars. cbn [variations_from].
  fold (candidate 0 clock (refine_prompt p) first).
  rewrite find_poster_head.
  cbn [PosterDisplay.app].
  split; [rewrite step_posters; cbn [produced]; now rewrite Hposters|].
  observe. cbn [handle]. unfold handleConfirmRefinement.
  cbn [activePosterId refinementVariations setRefinementVariations setActivePosterId].
  now repeat split.
Qed.

(** ** The active id at the wired controls *)

Lemma step_active ev st :
  activePosterId (step ev st) =
  match ev with
  | SelectPoster posterId => Some posterId
  | _ =>
      match produced ev with
      | Some v => Some (id v)
      | None => activePosterId st
      end
  end.
Proof.
  unfold step. rewrite commit_activePosterId.
  destruct ev; cbn [handle produced]; try reflexivity.
  - unfold handleGenerate_begin. now destruct (length _ =? 0)%nat.
  - unfold handleGenerate_settled.
    destruct (handleGenerate_try _ _ _ _); cbn; [|reflexivity].
    now destruct (gen_previewOpen _).
  - unfold handleRefine_begin. now destruct (find_poster _ _).
  - unfold handleRefine_settled. now destruct (Gemini.refinePoster _ _).
  - unfold handleUpscale_begin. now destruct (find_poster _ _).
  - unfold handleExpand_begin. now destruct (find_poster _ _).
  - unfold handleImageModification_settled.
    now destruct (handleImageModification_try _ _ _).
  - unfold handleApplyFilters_begin. now destruct (find_poster _ _).
  - unfold handleApplyFilters_loaded. now destruct (hasContext _).
  - unfold handlePreview. now destruct (find_poster _ _).
  - unfold handleOpenPosterCropModal. now destruct (find_poster _ _).
Qed.

Lemma shown_is_member slot st poster :
  PosterGallery.shown slot st = Some poster -> In poster (posters st).
Proof.
  unfold PosterGallery.shown. intro H. apply nth_error_In in H.
  rewrite <- (firstn_skipn 2 (posters st)). apply in_or_app. now left.
Qed.

Lemma act_keeps_pointer (a : Action) (st : AppState) :
  wired a = true -> pointer_resolves st -> pointer_resolves (act a st).
Proof.
  unfold pointer_resolves. intros Hw Hst.
  destruct a as [ev|slot]; cbn [act].
  - rewrite step_posters, step_active.
    destruct (produced ev) as [v|] eqn:Hv.
    + assert (Hactive : match ev with
                        | SelectPoster posterId => Some posterId
                        | _ => Some (id v)
                        end = Some (id v)) by (destruct ev; try reflexivity; discriminate).
      replace (match ev with SelectPoster posterId => Some posterId | _ => Some (id v) end)
        with (Some (id v)) by (destruct ev; try reflexivity; discriminate).
      unfold push. now rewrite find_poster_head.
    + destruct ev; try exact Hst. discriminate.
  - unfold PosterGallery.click.
    destruct (PosterGallery.shown slot st) as [poster|] eqn:Hshown; [|exact Hst].
    rewrite step_posters, step_active. cbn [produced].
    destruct (find_poster (Some (id poster)) (posters st)) eqn:Hfind; [exact I|].
    exfalso.
    exact (proj1 (find_poster_none _ _) Hfind poster (shown_is_member _ _ Hshown) eq_refl).
Qed.

Lemma awaited_resolved (c : Command) (w : World) (st : AppState) (active : Poster) :
  edits_active c = true ->
  find_poster (activePosterId st) (posters st) = Some active ->
  awaited c w st <> None.
Proof.
  intros Hc Hfind.
  destruct c; try discriminate; cbn [awaited];
    unfold handleRefine_begin, handleUpscale_begin, handleExpand_begin;
    rewrite Hfind; discriminate.
Qed.

(** X6.  At the wired controls the active id never dangles.  Starting from
    a state whose active id names a member of the history (or whose history
    is empty, as at start-up), after any sequence of handler events and
    thumbnail clicks the active id still names a member; the poster on
    display is then exactly the poster the handlers look up, and whenever a
    poster is displayed, refine, upscale and expand get as far as calling
    the service. *)
Theorem active_id_never_dangles (actions : list Action) (st : AppState) :
  pointer_resolves st ->
  forallb wired actions = true ->
  pointer_resolves (perform actions st)
  /\ activePoster (perform actions st) =
       find_poster (activePosterId (perform actions st)) (posters (perform actions st))
  /\ (forall c w, edits_active c = true ->
        posters (perform actions st) <> [] ->
        awaited c w (perform actions st) <> None).
Proof.
  intros Hst Hw.
  assert (Hinv : pointer_resolves (perform actions st)).
  { revert st Hst. induction actions as [|a rest IH]; intros st Hst; [exact Hst|].
    cbn [forallb] in Hw. apply andb_true_iff in Hw as [Ha Hrest].
    change (perform (a :: rest) st) with (perform rest (act a st)).
    apply IH; [exact Hrest|]. now apply act_keeps_pointer. }
  split; [exact Hinv|].
  unfold pointer_resolves in Hinv. unfold activePoster.
  destruct (find_poster _ _) as [active|] eqn:Hfind.
  - split; [reflexivity|]. intros c w Hc _. exact (@awaited_resolved c w _ _ Hc Hfind).
  - rewrite Hinv. split; [reflexivity|]. intros c w _ Hne. now elim Hne.
Qed.

(** ** How a command ends *)

Lemma commit_isLoading before after : isLoading (commit before after) = isLoading after.
Proof. unfold commit. now destruct (same_id _ _). Qed.

Lemma commit_previewModal before after :
  previewModal (commit before after) = previewModal after.
Proof. unfold commit. now destruct (same_id _ _). Qed.

Lemma step_isLoading ev st : isLoading (step ev st) = isLoading (handle ev st).
Proof. unfold step. apply commit_isLoading. Qed.

Lemma clicked_isLoading (c : Command) (w : World) (st : AppState) :
  isLoading (handle (clicked c) st) =
  match awaited c w st, c with
  | None, _ => isLoading st
  | Some _, Generate _ _ _ => {| generating := true; modifying := false |}
  | Some _, _ => {| generating := generating (isLoading st); modifying := true |}
  end.
Proof.
  destruct c; cbn [clicked handle awaited].
  - unfold handleGenerate_begin. now destruct (length _ =? 0)%nat.
  - unfold handleRefine_begin. now destruct (find_poster _ _).
  - unfold handleUpscale_begin. now destruct (find_poster _ _).
  - unfold handleExpand_begin. now destruct (find_poster _ _).
Qed.

(** X7.  No command leaves its progress flag set.  Once a generate,
    refine, upscale or expand has awaited the service, then whether it
    succeeded or failed the [modifying] flag is off; a generate also turns
    [generating] off, the other three leave it as it was.  A command that
    returned before awaiting anything leaves both flags alone. *)
Theorem command_clears_its_progress_flag (c : Command) (w : World) (st : AppState) :
  isLoading (fst (exec c w st)) =
  match awaited c w st, c with
  | None, _ => isLoading st
  | Some _, Generate _ _ _ => {| generating := false; modifying := false |}
  | Some _, _ => {| generating := generating (isLoading st); modifying := false |}
  end.
Proof.
  pose proof (clicked_isLoading c w st) as Hclick.
  unfold exec.
  destruct (awaited c w st) as [[ev calls]|] eqn:Ha; cbn [fst];
    rewrite step_isLoading.
  - destruct c as [concept hasReference posterText | refinementPrompt | scale
                  | direction size]; cbn [awaited] in Ha.
    + destruct (snd (handleGenerate_begin _ _ _ _)) as [p|]; [|discriminate].
      injection Ha as <- _. reflexivity.
    + destruct (snd (handleRefine_begin _ _)) as [p|]; [|discriminate].
      injection Ha as <- _. cbn [handle]. unfold handleRefine_settled.
      cbn [isLoading setIsLoading].
      replace (isLoading _) with (isLoading (step (RefineClicked refinementPrompt) st))
        by now destruct (Gemini.refinePoster _ _).
      rewrite step_isLoading. cbn [clicked] in Hclick. now rewrite Hclick.
    + destruct (snd (handleUpscale_begin _ _)) as [p|]; [|discriminate].
      injection Ha as <- _. cbn [handle]. unfold handleImageModification_settled.
      cbn [isLoading setIsLoading].
      replace (isLoading _) with (isLoading (step (UpscaleClicked scale) st))
        by now destruct (handleImageModification_try _ _ _).
      rewrite step_isLoading. cbn [clicked] in Hclick. now rewrite Hclick.
    + destruct (snd (handleExpand_begin _ _ _)) as [p|]; [|discriminate].
      injection Ha as <- _. cbn [handle]. unfold handleImageModification_settled.
      cbn [isLoading setIsLoading].
      replace (isLoading _) with (isLoading (step (ExpandClicked direction size) st))
        by now destruct (handleImageModification_try _ _ _).
      rewrite step_isLoading. cbn [clicked] in Hclick. now rewrite Hclick.
  - rewrite Hclick. now destruct c.
Qed.

Lemma clicked_error (c : Command) (w : World) (st : AppState) :
  awaited c w st <> None -> error (handle (clicked c) st) = None.
Proof.
  destruct c; cbn [clicked handle awaited].
  - unfold handleGenerate_begin. destruct (length _ =? 0)%nat; cbn; [easy | reflexivity].
  - unfold handleRefine_begin. destruct (find_poster _ _); cbn; [reflexivity | easy].
  - unfold handleUpscale_begin. destruct (find_poster _ _); cbn; [reflexivity | easy].
  - unfold handleExpand_begin. destruct (find_poster _ _); cbn; [reflexivity | easy].
Qed.

Lemma clicked_produces_nothing (c : Command) : produced (clicked c) = None.
Proof. now destruct c. Qed.

Lemma thrown_none {A} (r : Settled A) : thrown r = None -> exists a, r = Fulfilled a.
Proof. destruct r as [a|e]; cbn; [now exists a | discriminate]. Qed.

(** What a settled producing event leaves, in terms of the poster it made. *)
Lemma settled_push ev c st v :
  produced ev = Some v ->
  (forall posterId, ev <> SelectPoster posterId) ->
  posters (step ev (step (clicked c) st)) = v :: firstn 1 (posters st)
  /\ activePosterId (step ev (step (clicked c) st)) = Some (id v).
Proof.
  intros Hv Hnot. split.
  - rewrite step_posters, Hv, step_posters, clicked_produces_nothing. reflexivity.
  - rewrite step_active, Hv. destruct ev; try reflexivity. now elim (Hnot posterId).
Qed.

Lemma generate_pending_concept concept hasReference posterText st p :
  snd (handleGenerate_begin concept hasReference posterText st) = Some p ->
  gen_concept p = concept.
Proof.
  unfold handleGenerate_begin. destruct (length _ =? 0)%nat; cbn; [discriminate|].
  now intros [= <-].
Qed.

Lemma upscale_pending scale st p :
  snd (handleUpscale_begin scale st) = Some p ->
  mod_fn p = Gemini.upscalePoster scale
  /\ mod_prompt p = command_prompt (Upscale scale).
Proof.
  unfold handleUpscale_begin. destruct (find_poster _ _); cbn; [|discriminate].
  intros [= <-]. now split.
Qed.

Lemma expand_pending direction size st p :
  snd (handleExpand_begin direction size st) = Some p ->
  mod_fn p = Gemini.expandPoster
  /\ mod_prompt p = command_prompt (Expand direction size).
Proof.
  unfold handleExpand_begin. destruct (find_poster _ _); cbn; [|discriminate].
  intros [= <-]. now split.
Qed.

Lemma refine_pending_prompt refinementPrompt st p :
  snd (handleRefine_begin refinementPrompt st) = Some p ->
  refine_prompt p = refinementPrompt.
Proof.
  unfold handleRefine_begin. destruct (find_poster _ _); cbn; [|discriminate].
  now intros [= <-].
Qed.

(** X8.  What a successful command leaves.  A generate, upscale or
    expand that succeeds pushes one poster, built from the first inline
    image of the service's answer, stamped with the clock and carrying the
    command's prompt (the concept, "Upscaled Nx", "Expanded image (dir
    N%)"), in front of the first entry of the history, makes it active,
    leaves the candidate set alone and shows no error.  A refine that
    succeeds leaves the history and the active id alone, fills the
    candidate set from the images returned and shows no error. *)
Theorem successful_command_outcome (c : Command) (w : World) (st : AppState) :
  failure c w st = Some None ->
  error (fst (exec c w st)) = None
  /\ match c with
     | Refine refinementPrompt =>
         posters (fst (exec c w st)) = posters st
         /\ activePosterId (fst (exec c w st)) = activePosterId st
         /\ exists images,
              Gemini.refinePoster (reply1 w) (reply2 w) = Fulfilled images
              /\ refinementVariations (fst (exec c w st)) =
                   variations_from 0 (clock w) refinementPrompt images
     | _ =>
         exists image,
           first_image (reply1 w) image
           /\ posters (fst (exec c w st)) =
                {| id := ("poster-" ++ show (clock w 0))%string;
                   src := ("data:image/jpeg;base64," ++ image)%string;
                   prompt := command_prompt c |} :: firstn 1 (posters st)
           /\ activePosterId (fst (exec c w st))
              = Some ("poster-" ++ show (clock w 0))%string
           /\ refinementVariations (fst (exec c w st)) = refinementVariations st
     end.
Proof.
  intro H.
  assert (Hawaited : awaited c w st <> None).
  { unfold failure in H. now destruct (awaited c w st). }
  pose proof (clicked_error c w st Hawaited) as Herr.
  destruct (clicked_observed c st) as (Hposters & Hactive & Hvars).
  unfold failure, exec in *.
  destruct c as [concept hasReference posterText | refinementPrompt | scale
                | direction size]; cbn [awaited] in *.
  - destruct (snd (handleGenerate_begin _ _ _ _)) as [p|] eqn:Hp; [|discriminate].
    injection H as H. apply thrown_none in H as [v Hv]. cbn [fst].
    assert (Hprod : produced (GenerateSettled p (refRead w) (reply1 w) (clock w 0))
                    = Some v) by (cbn [produced]; now rewrite Hv).
    destruct (@settled_push _ (Generate concept hasReference posterText) st v Hprod)
      as [Hpush Hact]; [intros posterId; discriminate|].
    cbn [clicked] in Hpush, Hact.
    assert (Hshape : exists image,
               first_image (reply1 w) image
               /\ v = {| id := ("poster-" ++ show (clock w 0))%string;
                         src := ("data:image/jpeg;base64," ++ image)%string;
                         prompt := concept |}).
    { pose proof Hv as Hv'. unfold handleGenerate_try in Hv'.
      destruct (read_reference p (refRead w)); [|discriminate]. cbn [bind] in Hv'.
      destruct (Gemini.generatePoster (reply1 w)) as [image|] eqn:Hg; [|discriminate].
      cbn [bind] in Hv'. injection Hv' as <-. exists image. split.
      - unfold Gemini.generatePoster in Hg. now apply single_image_fulfilled in Hg.
      - now rewrite (generate_pending_concept _ _ _ _ Hp). }
    destruct Hshape as (image & Himage & ->).
    split.
    + observe. cbn [handle]. unfold handleGenerate_settled. rewrite Hv.
      destruct (gen_previewOpen p);
        cbn [error setIsLoading setPreviewModal setActivePosterId setPosters];
        observe; exact Herr.
    + exists image. split; [exact Himage|]. split; [exact Hpush|].
      split; [exact Hact|].
      observe. cbn [handle]. unfold handleGenerate_settled. rewrite Hv.
      destruct (gen_previewOpen p);
        cbn [refinementVariations setIsLoading setPreviewModal setActivePosterId
             setPosters];
        observe; exact Hvars.
  - destruct (snd (handleRefine_begin _ _)) as [p|] eqn:Hp; [|discriminate].
    injection H as H. apply thrown_none in H as [images Himages]. cbn [fst].
    split; [|split; [|split]].
    + observe. cbn [handle]. unfold handleRefine_settled. rewrite Himages.
      cbn [error setIsLoading setRefinementVariations]. observe. exact Herr.
    + rewrite !step_posters. reflexivity.
    + rewrite step_active. cbn [produced]. observe. exact Hactive.
    + exists images. split; [exact Himages|].
      observe. cbn [handle]. unfold handleRefine_settled. rewrite Himages.
      cbn [refinementVariations setIsLoading setRefinementVariations].
      now rewrite (refine_pending_prompt _ _ Hp).
  - destruct (snd (handleUpscale_begin _ _)) as [p|] eqn:Hp; [|discriminate].
    destruct (upscale_pending _ _ Hp) as [Hfn Hprompt].
    injection H as H. apply thrown_none in H as [v Hv]. cbn [fst].
    assert (Hprod : produced (ModificationSettled p (reply1 w) (clock w 0)) = Some v)
      by (cbn [produced]; now rewrite Hv).
    destruct (@settled_push _ (Upscale scale) st v Hprod)
      as [Hpush Hact]; [intros posterId; discriminate|].
    cbn [clicked] in Hpush, Hact.
    assert (Hshape : exists image,
               first_image (reply1 w) image
               /\ v = {| id := ("poster-" ++ show (clock w 0))%string;
                         src := ("data:image/jpeg;base64," ++ image)%string;
                         prompt := command_prompt (Upscale scale) |}).
    { pose proof Hv as Hv'. unfold handleImageModification_try in Hv'.
      rewrite Hfn, Hprompt in Hv'.
      destruct (Gemini.upscalePoster scale (reply1 w)) as [image|] eqn:Hg;
        [|discriminate].
      cbn [bind] in Hv'. injection Hv' as <-. exists image. split; [|reflexivity].
      unfold Gemini.upscalePoster, Gemini.performImageModification in Hg.
      now apply single_image_fulfilled in Hg. }
    destruct Hshape as (image & Himage & ->).
    split.
    + observe. cbn [handle]. unfold handleImageModification_settled. rewrite Hv.
      cbn [error setIsLoading setActivePosterId setPosters]. observe. exact Herr.
    + exists image. split; [exact Himage|]. split; [exact Hpush|].
      split; [exact Hact|].
      observe. cbn [handle]. unfold handleImageModification_settled. rewrite Hv.
      cbn [refinementVariations setIsLoading setActivePosterId setPosters].
      observe. exact Hvars.
  - destruct (snd (handleExpand_begin _ _ _)) as [p|] eqn:Hp; [|discriminate].
    destruct (expand_pending _ _ _ Hp) as [Hfn Hprompt].
    injection H as H. apply thrown_none in H as [v Hv]. cbn [fst].
    assert (Hprod : produced (ModificationSettled p (reply1 w) (clock w 0)) = Some v)
      by (cbn [produced]; now rewrite Hv).
    destruct (@settled_push _ (Expand direction size) st v Hprod)
      as [Hpush Hact]; [intros posterId; discriminate|].
    cbn [clicked] in Hpush, Hact.
    assert (Hshape : exists image,
               first_image (reply1 w) image
               /\ v = {| id := ("poster-" ++ show (clock w 0))%string;
                         src := ("data:image/jpeg;base64," ++ image)%string;
                         prompt := command_prompt (Expand direction size) |}).
    { pose proof Hv as Hv'. unfold handleImageModification_try in Hv'.
      rewrite Hfn, Hprompt in Hv'.
      destruct (Gemini.expandPoster (reply1 w)) as [image|] eqn:Hg; [|discriminate].
      cbn [bind] in Hv'. injection Hv' as <-. exists image. split; [|reflexivity].
      unfold Gemini.expandPoster, Gemini.performImageModification in Hg.
      now apply single_image_fulfilled in Hg. }
    destruct Hshape as (image & Himage & ->).
    split.
    + observe. cbn [handle]. unfold handleImageModification_settled. rewrite Hv.
      cbn [error setIsLoading setActivePosterId setPosters]. observe. exact Herr.
    + exists image. split; [exact Himage|]. split; [exact Hpush|].
      split; [exact Hact|].
      observe. cbn [handle]. unfold handleImageModification_settled. rewrite Hv.
      cbn [refinementVariations setIsLoading setActivePosterId setPosters].
      observe. exact Hvars.
Qed.

(** ** The Generate form and the request *)

Lemma generateDisabled_filter (ps : list Product) :
  forallb (fun p => negb (truthy_opt (processed p))) ps =
  (length (filter (fun p => truthy_opt (processed p)) ps) =? 0)%nat.
Proof.
  induction ps as [|p ps IH]; [reflexivity|].
  cbn [forallb filter]. destruct (truthy_opt (processed p)); cbn; [reflexivity | exact IH].
Qed.

(** X9.  The [disabled] prop that [App] hands to the Generate form is
    true exactly when the handler would refuse the command; the button is
    disabled at least when that prop is true (it is also disabled on a blank
    concept and while a generate is in flight), so the handler's validation
    error cannot be reached by pressing the button.  When the command is
    accepted, the only call made carries one image per product with a
    processed image, in the order of the product list, each encoded as
    image/png, together with the concept, the current aspect ratio and the
    poster text; the reference image is present exactly when a file was
    given and could be read, and when that file cannot be read no call is
    made at all.  A processed image built by the intake
    ("data:image/png;base64," and a payload without comma) is sent as that
    payload. *)
Theorem generate_request_carries_processed_products
    (concept : string) (hasReference : bool) (posterText : string)
    (w : World) (st : AppState) :
  (generateDisabled st = true <->
   awaited (Generate concept hasReference posterText) w st = None)
  /\ (generateDisabled st = false ->
      snd (exec (Generate concept hasReference posterText) w st) =
      match hasReference, refRead w with
      | false, _ =>
          [CallGeneratePoster
             (productData (filter (fun p => truthy_opt (processed p)) (products st)))
             concept (aspectRatio st) None posterText]
      | true, Fulfilled reference =>
          [CallGeneratePoster
             (productData (filter (fun p => truthy_opt (processed p)) (products st)))
             concept (aspectRatio st) (Some reference) posterText]
      | true, Rejected _ => []
      end)
  /\ (forall p payload,
        In p (products st) ->
        processed p = Some ("data:image/png;base64," ++ payload)%string ->
        occurs "," payload = false ->
        In {| base64 := Some payload; image_mimeType := "image/png" |}
           (productData (filter (fun p => truthy_opt (processed p)) (products st))))
  /\ (forall blankConcept : bool,
        blankConcept || generating (isLoading st) || generateDisabled st = false ->
        awaited (Generate concept hasReference posterText) w st <> None).
Proof.
  assert (Hbutton : forall blankConcept : bool,
            blankConcept || generating (isLoading st) || generateDisabled st = false ->
            awaited (Generate concept hasReference posterText) w st <> None).
  { intros blankConcept Hb.
    apply orb_false_iff in Hb as [_ Hprop].
    unfold generateDisabled in Hprop. rewrite generateDisabled_filter in Hprop.
    cbn [awaited]. unfold handleGenerate_begin. rewrite Hprop. discriminate. }
  refine ((fun H => conj (proj1 H) (conj (proj1 (proj2 H))
                                      (conj (proj2 (proj2 H)) Hbutton))) _).
  unfold generateDisabled. rewrite generateDisabled_filter.
  split; [|split].
  - cbn [awaited]. unfold handleGenerate_begin.
    destruct (length _ =? 0)%nat; cbn [snd]; split; congruence.
  - intro Hen. unfold exec. cbn [awaited]. unfold handleGenerate_begin.
    rewrite Hen. cbn [snd]. unfold handleGenerate_calls, read_reference.
    cbn [gen_hasReference gen_products gen_concept gen_aspectRatio gen_posterText].
    destruct hasReference; [|reflexivity].
    now destruct (refRead w).
  - intros p payload Hin Hproc Hcomma. unfold productData.
    apply in_map_iff. exists p. split.
    + rewrite Hproc, after_comma_png. now rewrite split_without.
    + apply filter_In. split; [exact Hin|]. now rewrite Hproc.
Qed.

(** ** Lookups that find nothing *)

(** X10.  Fullscreen preview, opening the crop tool and applying the
    pending adjustment look the active poster up like refine does: while the
    active id names no member of the history each of them leaves the state
    exactly as it is, and applying the adjustment pushes nothing and keeps
    the adjustment pending.  The Apply button is greyed out by the displayed
    poster instead, so with a non-empty history it stays enabled in that
    state. *)
Theorem lookups_on_unresolved_active_do_nothing (st : AppState) :
  find_poster (activePosterId st) (posters st) = None ->
  step PreviewClicked st = st
  /\ step PosterCropOpened st = st
  /\ (forall canvas now, applyFilters canvas now st = st)
  /\ (posters st <> [] -> applyDisabled st = false).
Proof.
  intro Hfind.
  assert (Hpreview : handle PreviewClicked st = st)
    by (cbn [handle]; unfold handlePreview; now rewrite Hfind).
  assert (Hcrop : handle PosterCropOpened st = st)
    by (cbn [handle]; unfold handleOpenPosterCropModal; now rewrite Hfind).
  assert (Hclick : handle ApplyFiltersClicked st = st)
    by (cbn [handle]; unfold handleApplyFilters_begin; now rewrite Hfind).
  split; [|split; [|split]].
  - rewrite step_same_active; now rewrite Hpreview.
  - rewrite step_same_active; now rewrite Hcrop.
  - intros canvas now. unfold applyFilters, handleApplyFilters_begin.
    rewrite Hfind. cbn [snd].
    rewrite step_same_active; now rewrite Hclick.
  - intro Hne. unfold applyDisabled, activePoster. rewrite Hfind.
    destruct (posters st); [now elim Hne | reflexivity].
Qed.

(** ** The tint controls *)

Lemma step_filter_change filters st :
  step (FilterChange filters) st = setPendingFilters filters st.
Proof. now rewrite step_same_active. Qed.

(** X11.  Picking a tint colour always leaves a tint that Apply will
    draw.  The colour picked replaces the pending one and the intensity is
    kept, except that a missing tint and an intensity of zero both become
    0.3; so, the pending intensity never being negative, the overlay test of
    Apply succeeds afterwards.  Brightness, contrast and saturation keep
    their values, and moving the intensity slider while no tint is set does
    nothing. *)
Theorem picked_tint_is_always_drawn (newColor : string) (st : AppState) :
  (forall t, tint (pendingFilters st) = Some t -> (0 <= amount t)%Q) ->
  let st' := ImageEditor.handleTintColorChange newColor st in
  (exists t',
     tint (pendingFilters st') = Some t'
     /\ color t' = newColor
     /\ tint_applies (Some t') = true
     /\ tint_overlay (Some t') = [FillTint newColor (amount t')]
     /\ match tint (pendingFilters st) with
        | Some t => if Qeq_bool (amount t) 0 then amount t' = (3 # 10)%Q
                    else amount t' = amount t
        | None => amount t' = (3 # 10)%Q
        end)
  /\ brightness (pendingFilters st') = brightness (pendingFilters st)
  /\ contrast (pendingFilters st') = contrast (pendingFilters st)
  /\ saturate (pendingFilters st') = saturate (pendingFilters st)
  /\ (tint (pendingFilters st) = None ->
      forall newAmount, ImageEditor.handleTintAmountChange newAmount st = st).
Proof.
  intros Hpos st'. subst st'.
  unfold ImageEditor.handleTintColorChange. rewrite step_filter_change.
  cbn [pendingFilters setPendingFilters brightness contrast saturate tint].
  assert (Hdrawn : tint_applies
                     (Some {| color := newColor;
                              amount := ImageEditor.amount_or_default
                                          (tint (pendingFilters st)) |}) = true).
  { unfold tint_applies, ImageEditor.amount_or_default. cbn [amount].
    destruct (tint (pendingFilters st)) as [t|] eqn:Ht; [|reflexivity].
    destruct (Qeq_bool (amount t) 0) eqn:Hz; [reflexivity|].
    apply negb_true_iff. destruct (Qle_bool (amount t) 0) eqn:Hle; [|reflexivity].
    apply Qle_bool_iff in Hle. apply Qeq_bool_neq in Hz.
    exfalso. apply Hz. apply Qle_antisym; [exact Hle | exact (Hpos t eq_refl)]. }
  split; [|split; [|split; [|split]]]; try reflexivity.
  - eexists. split; [reflexivity|]. split; [reflexivity|]. split; [exact Hdrawn|].
    split.
    + unfold tint_overlay. now rewrite Hdrawn.
    + cbn [amount]. unfold ImageEditor.amount_or_default.
      destruct (tint (pendingFilters st)) as [t|]; [|reflexivity].
      now destruct (Qeq_bool (amount t) 0).
  - intros Hnone newAmount. unfold ImageEditor.handleTintAmountChange.
    now rewrite Hnone.
Qed.

(** ** The product intake *)

Lemma process_queue_in_step url st :
  Intake.job_is_head st -> Intake.queue_in_step (Intake.process_queue url st).
Proof.
  unfold Intake.job_is_head, Intake.queue_in_step, Intake.process_queue.
  destruct (Intake.uploadQueue st) as [|f q] eqn:Hq,
           (Intake.productToCrop st) as [job|] eqn:Hjob;
    cbn [Intake.productToCrop Intake.uploadQueue option_map hd_error Intake.file];
    rewrite ?Hq, ?Hjob; cbn [option_map hd_error]; intro H;
    try discriminate; try reflexivity.
  now injection H as ->.
Qed.

Lemma handle_job_is_head ev st :
  Intake.queue_in_step st -> Intake.job_is_head (Intake.handle ev st).
Proof.
  unfold Intake.queue_in_step, Intake.job_is_head. intro H.
  destruct ev; cbn [Intake.handle].
  - unfold Intake.handleFileSelect. cbn [Intake.productToCrop Intake.uploadQueue].
    destruct (Intake.productToCrop st) as [job|]; [|exact I].
    cbn [option_map] in H. destruct (Intake.uploadQueue st); [discriminate|].
    cbn [hd_error app] in *. congruence.
  - unfold Intake.handleApplyProductCrop_begin.
    destruct captured as [job|]; cbn [fst]; [exact I|].
    destruct (Intake.productToCrop st); [cbn [option_map] in H; congruence | exact I].
  - unfold Intake.handleApplyProductCrop_settled.
    destruct (Intake.handleApplyProductCrop_try _ _);
      cbn [Intake.productToCrop Intake.uploadQueue];
      (destruct (Intake.productToCrop st); [cbn [option_map] in H; congruence | exact I]).
  - exact I.
  - unfold Intake.handleProductRemove. cbn [Intake.productToCrop Intake.uploadQueue].
    destruct (Intake.productToCrop st); [cbn [option_map] in H; congruence | exact I].
Qed.

Lemma step_queue_in_step ev url st :
  Intake.queue_in_step st -> Intake.queue_in_step (Intake.step ev url st).
Proof.
  intro H. unfold Intake.step. apply process_queue_in_step.
  now apply handle_job_is_head.
Qed.

Lemma process_queue_keeps url st :
  Intake.uploadQueue (Intake.process_queue url st) = Intake.uploadQueue st
  /\ Intake.app (Intake.process_queue url st) = Intake.app st.
Proof.
  unfold Intake.process_queue.
  destruct (Intake.uploadQueue st) eqn:Hq, (Intake.productToCrop st);
    cbn [Intake.uploadQueue Intake.app]; now rewrite ?Hq.
Qed.

Lemma process_queue_settled url st :
  Intake.queue_in_step st -> Intake.process_queue url st = st.
Proof.
  unfold Intake.queue_in_step, Intake.process_queue.
  destruct (Intake.uploadQueue st) as [|f q]; [reflexivity|].
  destruct (Intake.productToCrop st); [reflexivity | discriminate].
Qed.

(** X12.  The crop tool follows the upload queue.  After any sequence of
    intake events, apply handlers that run late with the job of an earlier
    render included, the crop tool shows the head of the queue, and shows a
    file whenever the queue holds one.  Cancel removes the head of the queue
    and shows the next file, adding no product.  An apply handler removes
    the head of the queue it finds and shows the next file, and appends one
    product named after the file its click captured and the clock,
    unprocessed and marked as processing; a handler whose closure holds no
    job does nothing.  A click made in the state at hand captures the head
    of the queue, so then the file cropped is the file removed. *)
Theorem crop_tool_follows_upload_queue
    (evs : list (Intake.Event * string)) (st : Intake.State) :
  Intake.queue_in_step st ->
  let s := Intake.run evs st in
  Intake.queue_in_step s
  /\ (forall url,
        Intake.uploadQueue (Intake.step Intake.CropCancelled url s)
        = skipn 1 (Intake.uploadQueue s)
        /\ products (Intake.app (Intake.step Intake.CropCancelled url s))
           = products (Intake.app s)
        /\ option_map Intake.file
             (Intake.productToCrop (Intake.step Intake.CropCancelled url s))
           = hd_error (skipn 1 (Intake.uploadQueue s)))
  /\ (forall captured croppedImageSrc now url,
        Intake.uploadQueue
          (Intake.step (Intake.CropApplied (Some captured) croppedImageSrc now) url s)
        = skipn 1 (Intake.uploadQueue s)
        /\ products
             (Intake.app
                (Intake.step (Intake.CropApplied (Some captured) croppedImageSrc now)
                   url s))
           = products (Intake.app s)
             ++ [{| product_id :=
                      (Intake.file_name (Intake.file captured) ++ "-" ++ show now)%string;
                    original := croppedImageSrc;
                    originalMimeType := "image/jpeg";
                    processed := None;
                    isProcessing := true |}]
        /\ option_map Intake.file
             (Intake.productToCrop
                (Intake.step (Intake.CropApplied (Some captured) croppedImageSrc now)
                   url s))
           = hd_error (skipn 1 (Intake.uploadQueue s)))
  /\ (forall croppedImageSrc now url,
        Intake.step (Intake.CropApplied None croppedImageSrc now) url s = s)
  /\ (forall captured,
        Intake.captured_at_click s = Some captured ->
        hd_error (Intake.uploadQueue s) = Some (Intake.file captured)).
Proof.
  intros Hst s.
  assert (Hs : Intake.queue_in_step s).
  { subst s. revert st Hst. induction evs as [|[ev url] rest IH]; intros st Hst;
      [exact Hst|].
    change (Intake.run ((ev, url) :: rest) st)
      with (Intake.run rest (Intake.step ev url st)).
    apply IH. now apply step_queue_in_step. }
  split; [exact Hs|]. split; [|split; [|split]].
  - intro url.
    pose proof (step_queue_in_step Intake.CropCancelled url Hs) as Hnext.
    assert (Hq : Intake.uploadQueue (Intake.step Intake.CropCancelled url s)
                 = skipn 1 (Intake.uploadQueue s)).
    { unfold Intake.step. now rewrite (proj1 (process_queue_keeps _ _)). }
    split; [exact Hq|]. split.
    + unfold Intake.step. now rewrite (proj2 (process_queue_keeps _ _)).
    + unfold Intake.queue_in_step in Hnext. now rewrite Hnext, Hq.
  - intros captured croppedImageSrc now url.
    pose proof (step_queue_in_step
                  (Intake.CropApplied (Some captured) croppedImageSrc now) url Hs)
      as Hnext.
    unfold Intake.queue_in_step in Hnext.
    assert (Hq : Intake.uploadQueue
                   (Intake.step (Intake.CropApplied (Some captured) croppedImageSrc now)
                      url s)
                 = skipn 1 (Intake.uploadQueue s)).
    { unfold Intake.step. now rewrite (proj1 (process_queue_keeps _ _)). }
    split; [exact Hq|]. split.
    + unfold Intake.step. now rewrite (proj2 (process_queue_keeps _ _)).
    + now rewrite Hnext, Hq.
  - intros croppedImageSrc now url. unfold Intake.step.
    cbn [Intake.handle Intake.handleApplyProductCrop_begin fst].
    now apply process_queue_settled.
  - intros captured Hcaptured. unfold Intake.captured_at_click in Hcaptured.
    unfold Intake.queue_in_step in Hs. rewrite Hcaptured in Hs.
    cbn [option_map] in Hs. now rewrite <- Hs.
Qed.

Lemma update_product_ids target update prev :
  (forall q, product_id (update q) = product_id q) ->
  map product_id (Intake.update_product target update prev) = map product_id prev.
Proof.
  intro H. unfold Intake.update_product. rewrite map_map.
  apply map_ext. intro q. destruct (String.eqb _ _); [apply H | reflexivity].
Qed.

Lemma update_product_absent target update prev :
  (forall q, In q prev -> product_id q <> target) ->
  Intake.update_product target update prev = prev.
Proof.
  intro H. unfold Intake.update_product.
  induction prev as [|q prev IH]; [reflexivity|]. cbn [map].
  destruct (String.eqb (product_id q) target) eqn:E.
  - apply String.eqb_eq in E. now elim (H q (or_introl eq_refl)).
  - rewrite IH; [reflexivity|]. intros q' Hq'. apply H. now right.
Qed.

Lemma settled_products p read reply st :
  exists update,
    products (Intake.app (Intake.handle (Intake.BackgroundSettled p read reply) st))
    = Intake.update_product (product_id (Intake.newProduct p)) update
        (products (Intake.app st))
    /\ (forall q, product_id (update q) = product_id q
                  /\ original (update q) = original q
                  /\ isProcessing (update q) = false
                  /\ processed (update q) =
                       match Intake.handleApplyProductCrop_try read reply with
                       | Fulfilled processedSrc => Some processedSrc
                       | Rejected _ => processed q
                       end).
Proof.
  cbn [Intake.handle]. unfold Intake.handleApplyProductCrop_settled.
  destruct (Intake.handleApplyProductCrop_try read reply) as [processedSrc|err];
    eexists; (split; [reflexivity|]); intro q; now repeat split.
Qed.

(** X13.  When a background removal settles, only the product it was
    started for changes: the list keeps its length, order and ids, every
    product with another id is where and what it was, and the product with
    that id stops being marked as processing and keeps its cropped
    original.  A product removed while its background removal was in flight
    does not come back: the settling changes no product then. *)
Theorem background_removal_touches_only_its_product
    (p : Intake.Pending) (read : Settled (option string)) (reply : Gemini.Reply)
    (st : Intake.State) :
  let target := product_id (Intake.newProduct p) in
  let st' := Intake.handle (Intake.BackgroundSettled p read reply) st in
  map product_id (products (Intake.app st')) = map product_id (products (Intake.app st))
  /\ (forall i q,
        nth_error (products (Intake.app st)) i = Some q ->
        if String.eqb (product_id q) target
        then exists q',
               nth_error (products (Intake.app st')) i = Some q'
               /\ original q' = original q
               /\ isProcessing q' = false
        else nth_error (products (Intake.app st')) i = Some q)
  /\ (forall q,
        In q (products (Intake.app (Intake.handle (Intake.ProductRemoved target) st))) <->
        In q (products (Intake.app st)) /\ product_id q <> target)
  /\ products (Intake.app
       (Intake.handle (Intake.BackgroundSettled p read reply)
          (Intake.handle (Intake.ProductRemoved target) st)))
     = products (Intake.app (Intake.handle (Intake.ProductRemoved target) st)).
Proof.
  intros target st'. subst st'.
  destruct (settled_products p read reply st) as (update & Hprod & Hupd).
  assert (Hremoved : forall q,
            In q (products (Intake.app (Intake.handle (Intake.ProductRemoved target) st)))
            <-> In q (products (Intake.app st)) /\ product_id q <> target).
  { intro q. cbn [Intake.handle Intake.handleProductRemove Intake.app products setProducts].
    rewrite filter_In. split; intros [Hin Hne]; (split; [exact Hin|]).
    - apply negb_true_iff in Hne. intro E. apply String.eqb_eq in E. congruence.
    - apply negb_true_iff. destruct (String.eqb (product_id q) target) eqn:E;
        [|reflexivity]. apply String.eqb_eq in E. now elim Hne. }
  split; [|split; [|split]].
  - rewrite Hprod. apply update_product_ids. intro q. apply Hupd.
  - intros i q Hq. rewrite Hprod. unfold Intake.update_product.
    rewrite nth_error_map, Hq. cbn [option_map]. fold target.
    destruct (String.eqb (product_id q) target); [|reflexivity].
    exists (update q). destruct (Hupd q) as (_ & Ho & Hp & _). now repeat split.
  - exact Hremoved.
  - destruct (settled_products p read reply
                (Intake.handle (Intake.ProductRemoved target) st))
      as (update' & Hprod' & _).
    rewrite Hprod'. apply update_product_absent.
    intros q Hq. now apply Hremoved in Hq.
Qed.

Lemma disabled_by_processed (ps : list Product) :
  forallb (fun p => negb (truthy_opt (processed p))) ps =
  forallb (fun o => negb (truthy_opt o)) (map processed ps).
Proof. induction ps as [|p ps IH]; cbn; [reflexivity | now rewrite IH]. Qed.

Lemma try_fulfilled read reply processedSrc :
  Intake.handleApplyProductCrop_try read reply = Fulfilled processedSrc ->
  exists image,
    first_image reply image
    /\ processedSrc = ("data:image/png;base64," ++ image)%string.
Proof.
  unfold Intake.handleApplyProductCrop_try.
  destruct read as [r|e]; cbn [bind]; [|discriminate].
  destruct (Gemini.removeBackground reply) as [image|] eqn:Hg; cbn [bind];
    [|discriminate].
  intros [= <-]. exists image. split; [|reflexivity].
  unfold Gemini.removeBackground in Hg. now apply single_image_fulfilled in Hg.
Qed.

(** X14.  How a background removal ends.  When it succeeds, every
    product with the id it was started for gets as processed image
    "data:image/png;base64," followed by the first inline image of the
    service's answer, and stops being marked as processing; no error is
    written, and if such a product is still in the list the [disabled] prop
    of the Generate form is false from then on.  When it fails (the cropped
    image cannot be read back, the request is rejected or the answer holds
    no image), the error names the file ("Failed to process image: " and its
    name), no product's processed image changes, and that prop stays as it
    was. *)
Theorem background_removal_outcome
    (p : Intake.Pending) (read : Settled (option string)) (reply : Gemini.Reply)
    (st : Intake.State) :
  let target := product_id (Intake.newProduct p) in
  let st' := Intake.handle (Intake.BackgroundSettled p read reply) st in
  match Intake.handleApplyProductCrop_try read reply with
  | Fulfilled processedSrc =>
      (exists image,
         first_image reply image
         /\ processedSrc = ("data:image/png;base64," ++ image)%string
         /\ forall i q,
              nth_error (products (Intake.app st)) i = Some q ->
              product_id q = target ->
              nth_error (products (Intake.app st')) i
              = Some {| product_id := product_id q;
                        original := original q;
                        originalMimeType := originalMimeType q;
                        processed := Some ("data:image/png;base64," ++ image)%string;
                        isProcessing := false |})
      /\ error (Intake.app st') = error (Intake.app st)
      /\ (forall q, In q (products (Intake.app st)) -> product_id q = target ->
          generateDisabled (Intake.app st') = false)
  | Rejected _ =>
      error (Intake.app st')
      = Some ("Failed to process image: " ++ Intake.file_name (Intake.cropped_file p))%string
      /\ map processed (products (Intake.app st'))
         = map processed (products (Intake.app st))
      /\ generateDisabled (Intake.app st') = generateDisabled (Intake.app st)
  end.
Proof.
  intros target st'. subst st'.
  cbn [Intake.handle]. unfold Intake.handleApplyProductCrop_settled.
  destruct (Intake.handleApplyProductCrop_try read reply) as [processedSrc|err] eqn:Htry;
    cbn [Intake.app products error setProducts setError].
  - destruct (try_fulfilled _ _ Htry) as (image & Himage & Hsrc).
    assert (Hstored : forall i q,
              nth_error (products (Intake.app st)) i = Some q ->
              product_id q = target ->
              nth_error
                (Intake.update_product (product_id (Intake.newProduct p))
                   (fun q0 =>
                      {| product_id := product_id q0; original := original q0;
                         originalMimeType := originalMimeType q0;
                         processed := Some processedSrc; isProcessing := false |})
                   (products (Intake.app st))) i
              = Some {| product_id := product_id q;
                        original := original q;
                        originalMimeType := originalMimeType q;
                        processed := Some ("data:image/png;base64," ++ image)%string;
                        isProcessing := false |}).
    { intros i q Hq Hid. unfold Intake.update_product.
      rewrite nth_error_map, Hq. cbn [option_map]. fold target.
      rewrite Hid, String.eqb_refl. now rewrite Hsrc. }
    split; [exists image; now repeat split|]. split; [reflexivity|].
    intros q Hin Hid. unfold generateDisabled.
    cbn [Intake.app products setProducts].
    destruct (forallb _ _) eqn:Hall; [|reflexivity].
    rewrite forallb_forall in Hall.
    apply In_nth_error in Hin as [i Hi].
    specialize (Hall _ (nth_error_In _ _ (Hstored i q Hi Hid))).
    discriminate.
  - assert (Hsame : map processed
                      (Intake.update_product (product_id (Intake.newProduct p))
                         (fun q =>
                            {| product_id := product_id q; original := original q;
                               originalMimeType := originalMimeType q;
                               processed := processed q; isProcessing := false |})
                         (products (Intake.app st)))
                    = map processed (products (Intake.app st))).
    { unfold Intake.update_product. rewrite map_map. apply map_ext. intro q.
      now destruct (String.eqb _ _). }
    split; [reflexivity|]. split; [exact Hsame|].
    unfold generateDisabled. cbn [Intake.app products setProducts setError].
    rewrite !disabled_by_processed. now rewrite Hsame.
Qed.

(** ** The theme *)

Lemma contains_add_same token classes :
  ThemeProvider.contains token (ThemeProvider.add token classes) = true.
Proof.
  unfold ThemeProvider.add.
  destruct (ThemeProvider.contains token classes) eqn:E; [exact E|].
  unfold ThemeProvider.contains. rewrite existsb_app. cbn.
  now rewrite String.eqb_refl, orb_true_r.
Qed.

Lemma contains_add_other token other classes :
  token <> other ->
  ThemeProvider.contains token (ThemeProvider.add other classes)
  = ThemeProvider.contains token classes.
Proof.
  intro Hne. unfold ThemeProvider.add.
  destruct (ThemeProvider.contains other classes); [reflexivity|].
  unfold ThemeProvider.contains. rewrite existsb_app. cbn.
  apply String.eqb_neq in Hne. now rewrite Hne, !orb_false_r.
Qed.

Lemma contains_remove_same token classes :
  ThemeProvider.contains token (ThemeProvider.remove token classes) = false.
Proof.
  unfold ThemeProvider.contains, ThemeProvider.remove.
  induction classes as [|c classes IH]; [reflexivity|]. cbn [filter].
  destruct (String.eqb c token) eqn:E; cbn [negb]; [exact IH|].
  cbn [existsb]. rewrite IH, String.eqb_sym. now rewrite E.
Qed.

Lemma contains_remove_other token other classes :
  token <> other ->
  ThemeProvider.contains token (ThemeProvider.remove other classes)
  = ThemeProvider.contains token classes.
Proof.
  intro Hne. unfold ThemeProvider.contains, ThemeProvider.remove.
  induction classes as [|c classes IH]; [reflexivity|]. cbn [filter existsb].
  destruct (String.eqb c other) eqn:E; cbn [negb existsb].
  - apply String.eqb_eq in E. subst c.
    apply String.eqb_neq in Hne. now rewrite Hne, IH.
  - now rewrite IH.
Qed.

(** X15.  The theme state follows the class on the document root.  After
    mounting, and after any number of toggles, the state is dark exactly
    when the root carries the class "dark"; once the theme has been toggled
    at least once, the root carries the class of the current theme and not
    the other one; toggling twice gives the theme back; and no toggle
    touches any other class of the root. *)
Theorem theme_follows_root_class (classes : ThemeProvider.ClassList) (n : nat) :
  let st := ThemeProvider.toggles n (ThemeProvider.sync (ThemeProvider.mounted classes)) in
  (ThemeProvider.contains "dark" (ThemeProvider.rootClasses st) = true
   <-> ThemeProvider.theme st = ThemeProvider.dark)
  /\ ((1 <= n)%nat ->
      (ThemeProvider.contains "light" (ThemeProvider.rootClasses st) = true
       <-> ThemeProvider.theme st = ThemeProvider.light))
  /\ ThemeProvider.theme (ThemeProvider.toggleTheme (ThemeProvider.toggleTheme st))
     = ThemeProvider.theme st
  /\ (forall token, token <> "dark" -> token <> "light" ->
      ThemeProvider.contains token (ThemeProvider.rootClasses st)
      = ThemeProvider.contains token classes).
Proof.
  intro st. subst st.
  split; [|split; [|split]].
  - destruct n as [|n]; cbn [ThemeProvider.toggles].
    + cbn [ThemeProvider.sync ThemeProvider.mounted ThemeProvider.theme
           ThemeProvider.rootClasses].
      destruct (ThemeProvider.contains "dark" classes); split; congruence.
    + unfold ThemeProvider.toggleTheme.
      cbn [ThemeProvider.theme ThemeProvider.rootClasses].
      destruct (ThemeProvider.theme _); cbn [ThemeProvider.class_of].
      * rewrite contains_add_same. now split.
      * rewrite contains_add_other, contains_remove_same by discriminate.
        split; discriminate.
  - intro Hn. destruct n as [|n]; [lia|]. cbn [ThemeProvider.toggles].
    unfold ThemeProvider.toggleTheme.
    cbn [ThemeProvider.theme ThemeProvider.rootClasses].
    destruct (ThemeProvider.theme _); cbn [ThemeProvider.class_of].
    + rewrite contains_add_other, contains_remove_same by discriminate.
      split; discriminate.
    + rewrite contains_add_same. now split.
  - unfold ThemeProvider.toggleTheme. cbn [ThemeProvider.theme].
    now destruct (ThemeProvider.theme _).
  - intros token Hd Hl. induction n as [|n IH]; cbn [ThemeProvider.toggles].
    + reflexivity.
    + unfold ThemeProvider.toggleTheme at 1. cbn [ThemeProvider.rootClasses].
      rewrite <- IH.
      destruct (ThemeProvider.theme _); cbn [ThemeProvider.class_of];
        now rewrite contains_add_other, contains_remove_other.
Qed.

(** ** The further statements at concrete inputs *)

Lemma command_sends_back_the_payload_witness :
  find_poster (activePosterId Sample.viewing) (posters Sample.viewing) = Some Sample.v1
  /\ occurs "," "AAAA" = false
  /\ snd (exec (Upscale Scale2)
            (Sample.world (Sample.reply_with "BBBB") Sample.reply_rejected)
            Sample.viewing)
     = [CallUpscalePoster {| base64 := Some "AAAA"; image_mimeType := "image/jpeg" |}
          Scale2].
Proof.
  split; [reflexivity|]. split; [reflexivity|].
  exact (@command_sends_back_the_payload (Upscale Scale2)
           (Sample.world (Sample.reply_with "BBBB") Sample.reply_rejected)
           Sample.viewing Sample.v1 "AAAA" eq_refl eq_refl eq_refl eq_refl).
Defined.

Lemma service_returns_first_inline_image_witness :
  Gemini.generatePoster (Sample.reply_with "AAAA") = Fulfilled "AAAA"
  /\ first_image (Sample.reply_with "AAAA") "AAAA"
  /\ (forall err, Gemini.expandPoster Sample.reply_rejected = Rejected err ->
      message err = Some "Failed to expand the poster.").
Proof.
  split; [reflexivity|]. split.
  - destruct (service_returns_first_inline_image (Sample.reply_with "AAAA"))
      as (_ & Hgenerate & _).
    apply (proj1 (Hgenerate "AAAA")). reflexivity.
  - destruct (service_returns_first_inline_image Sample.reply_rejected)
      as (_ & _ & _ & _ & _ & _ & _ & Hexpand).
    intros err Herr. now rewrite (Hexpand err Herr).
Defined.

Lemma candidates_never_exceed_two_witness :
  (length (refinementVariations Sample.ready) <= 2)%nat
  /\ (length (refinementVariations (run Sample.session Sample.ready)) <= 2)%nat.
Proof.
  assert (H : (length (refinementVariations Sample.ready) <= 2)%nat) by (cbn; lia).
  split; [exact H|].
  exact (proj1 (candidates_never_exceed_two Sample.session Sample.ready H)).
Defined.

Lemma clicked_candidate_is_the_one_confirmed_witness :
  Gemini.refinePoster (Sample.reply_with "CCCC") (Sample.reply_with "DDDD")
  = Fulfilled ["CCCC"; "DDDD"]
  /\ In Sample.candidate2
       (refinementVariations
          (step (RefineSettled {| refine_poster := Sample.v1;
                                  refine_prompt := "make it blue" |}
                   (Sample.reply_with "CCCC") (Sample.reply_with "DDDD")
                   (fun _ => 3000%N)) Sample.viewing))
  /\ posters
       (PosterDisplay.app
          (PosterDisplay.handleConfirm
             (PosterDisplay.select (id Sample.candidate2)
                {| PosterDisplay.app :=
                     step (RefineSettled {| refine_poster := Sample.v1;
                                            refine_prompt := "make it blue" |}
                             (Sample.reply_with "CCCC") (Sample.reply_with "DDDD")
                             (fun _ => 3000%N)) Sample.viewing;
                   PosterDisplay.selectedVariationId := None |})))
     = Sample.candidate2 :: firstn 1 (posters Sample.viewing).
Proof.
  assert (Hin : In Sample.candidate2
                  (refinementVariations
                     (step (RefineSettled {| refine_poster := Sample.v1;
                                             refine_prompt := "make it blue" |}
                              (Sample.reply_with "CCCC") (Sample.reply_with "DDDD")
                              (fun _ => 3000%N)) Sample.viewing)))
    by (right; left; reflexivity).
  split; [reflexivity|]. split; [exact Hin|].
  destruct (@clicked_candidate_is_the_one_confirmed
              {| refine_poster := Sample.v1; refine_prompt := "make it blue" |}
              (Sample.reply_with "CCCC") (Sample.reply_with "DDDD") (fun _ => 3000%N)
              Sample.viewing ["CCCC"; "DDDD"] None Sample.candidate2 eq_refl Hin)
    as (_ & Hposters & _).
  exact Hposters.
Defined.

Lemma confirm_without_click_takes_first_candidate_witness :
  Gemini.refinePoster Sample.reply_without_image (Sample.reply_with "DDDD")
  = Fulfilled ["DDDD"]
  /\ exists first rest,
       ["DDDD"] = first :: rest
       /\ posters
            (PosterDisplay.app
               (PosterDisplay.handleConfirm
                  (PosterDisplay.preselect
                     {| PosterDisplay.app :=
                          step (RefineSettled {| refine_poster := Sample.v1;
                                                 refine_prompt := "make it blue" |}
                                  Sample.reply_without_image (Sample.reply_with "DDDD")
                                  (fun _ => 3000%N)) Sample.viewing;
                        PosterDisplay.selectedVariationId := None |})))
          = candidate 0 (fun _ => 3000%N) "make it blue" first
            :: firstn 1 (posters Sample.viewing).
Proof.
  split; [reflexivity|].
  destruct (@confirm_without_click_takes_first_candidate
              {| refine_poster := Sample.v1; refine_prompt := "make it blue" |}
              Sample.reply_without_image (Sample.reply_with "DDDD") (fun _ => 3000%N)
              Sample.viewing ["DDDD"] None eq_refl eq_refl)
    as (first & rest & Himages & Hposters & _).
  exists first, rest. split; [exact Himages | exact Hposters].
Defined.

Lemma active_id_never_dangles_witness :
  pointer_resolves Sample.ready
  /\ forallb wired Sample2.clicks = true
  /\ pointer_resolves (perform Sample2.clicks Sample.ready)
  /\ activePoster (perform Sample2.clicks Sample.ready)
     = find_poster (activePosterId (perform Sample2.clicks Sample.ready))
         (posters (perform Sample2.clicks Sample.ready)).
Proof.
  assert (H : pointer_resolves Sample.ready) by reflexivity.
  split; [exact H|]. split; [reflexivity|].
  destruct (active_id_never_dangles Sample2.clicks Sample.ready H eq_refl)
    as (Hinv & Hshown & _).
  split; [exact Hinv | exact Hshown].
Defined.

Lemma successful_command_outcome_witness :
  failure (Upscale Scale2)
    (Sample.world (Sample.reply_with "BBBB") Sample.reply_rejected) Sample.viewing
  = Some None
  /\ error (fst (exec (Upscale Scale2)
                   (Sample.world (Sample.reply_with "BBBB") Sample.reply_rejected)
                   Sample.viewing)) = None
  /\ exists image,
       first_image (Sample.reply_with "BBBB") image
       /\ posters (fst (exec (Upscale Scale2)
                          (Sample.world (Sample.reply_with "BBBB") Sample.reply_rejected)
                          Sample.viewing))
          = {| id := "poster-3000";
               src := ("data:image/jpeg;base64," ++ image)%string;
               prompt := "Upscaled 2x" |} :: [Sample.v1].
Proof.
  split; [reflexivity|].
  destruct (@successful_command_outcome (Upscale Scale2)
              (Sample.world (Sample.reply_with "BBBB") Sample.reply_rejected)
              Sample.viewing eq_refl)
    as (Herr & image & Himage & Hposters & _).
  split; [exact Herr|]. exists image. split; [exact Himage | exact Hposters].
Defined.

Lemma generate_request_carries_processed_products_witness :
  generateDisabled Sample.ready = false
  /\ snd (exec (Generate "neon sign" false "")
            (Sample.world (Sample.reply_with "AAAA") Sample.reply_rejected)
            Sample.ready)
     = [CallGeneratePoster [{| base64 := Some "QQQQ"; image_mimeType := "image/png" |}]
          "neon sign" AR_9_16 None ""]
  /\ (generateDisabled Sample.not_ready = true <->
      awaited (Generate "neon sign" false "")
        (Sample.world (Sample.reply_with "AAAA") Sample.reply_rejected)
        Sample.not_ready = None).
Proof.
  split; [reflexivity|]. split.
  - exact (proj1 (proj2 (generate_request_carries_processed_products "neon sign" false ""
                           (Sample.world (Sample.reply_with "AAAA") Sample.reply_rejected)
                           Sample.ready)) eq_refl).
  - exact (proj1 (generate_request_carries_processed_products "neon sign" false ""
                    (Sample.world (Sample.reply_with "AAAA") Sample.reply_rejected)
                    Sample.not_ready)).
Defined.

Lemma lookups_on_unresolved_active_do_nothing_witness :
  find_poster (activePosterId Sample.dangling) (posters Sample.dangling) = None
  /\ applyFilters Sample.canvas 4000 Sample.dangling = Sample.dangling
  /\ applyDisabled Sample.dangling = false.
Proof.
  split; [reflexivity|].
  destruct (@lookups_on_unresolved_active_do_nothing Sample.dangling eq_refl)
    as (_ & _ & Happly & Hbutton).
  split; [exact (Happly Sample.canvas 4000%N)|].
  apply Hbutton. discriminate.
Defined.

Lemma picked_tint_is_always_drawn_witness :
  (forall t, tint (pendingFilters (setPendingFilters Sample2.faded Sample.viewing)) = Some t ->
             (0 <= amount t)%Q)
  /\ exists t',
       tint (pendingFilters
               (ImageEditor.handleTintColorChange "#ff007f"
                  (setPendingFilters Sample2.faded Sample.viewing))) = Some t'
       /\ color t' = "#ff007f"
       /\ tint_applies (Some t') = true.
Proof.
  assert (H : forall t,
             tint (pendingFilters (setPendingFilters Sample2.faded Sample.viewing)) = Some t ->
             (0 <= amount t)%Q).
  { intros t [= <-]. cbn. apply Qle_refl. }
  split; [exact H|].
  destruct (@picked_tint_is_always_drawn "#ff007f"
              (setPendingFilters Sample2.faded Sample.viewing) H)
    as ((t' & Ht' & Hcolor & Hdrawn & _) & _).
  exists t'. split; [exact Ht'|]. split; [exact Hcolor | exact Hdrawn].
Defined.

(** The second of two handlers started by one click crops the first file
    again and takes the second file off the queue uncropped. *)
Example double_apply_crops_the_same_file :
  map product_id (products (Intake.app (Intake.run Sample2.double_apply Intake.initial)))
  = ["shoe.png-900"; "shoe.png-901"]
  /\ Intake.uploadQueue (Intake.run Sample2.double_apply Intake.initial) = []
  /\ Intake.productToCrop (Intake.run Sample2.double_apply Intake.initial) = None.
Proof. repeat split; reflexivity. Qed.

Lemma crop_tool_follows_upload_queue_witness :
  Intake.queue_in_step Intake.initial
  /\ Intake.queue_in_step (Intake.run Sample2.upload Intake.initial)
  /\ Intake.uploadQueue
       (Intake.step Intake.CropCancelled "blob:4"
          (Intake.run [(Intake.FilesSelected [Sample2.shoe; Sample2.hat], "blob:1")]
             Intake.initial))
     = [Sample2.hat]
  /\ hd_error
       (Intake.uploadQueue
          (Intake.run [(Intake.FilesSelected [Sample2.shoe; Sample2.hat], "blob:1")]
             Intake.initial))
     = Some Sample2.shoe.
Proof.
  assert (H : Intake.queue_in_step Intake.initial) by reflexivity.
  split; [exact H|]. split.
  - exact (proj1 (crop_tool_follows_upload_queue Sample2.upload H)).
  - destruct (crop_tool_follows_upload_queue
                [(Intake.FilesSelected [Sample2.shoe; Sample2.hat], "blob:1")] H)
      as (_ & Hcancel & _ & _ & Hfresh).
    split; [exact (proj1 (Hcancel "blob:4"))|].
    exact (Hfresh {| Intake.file := Sample2.shoe; Intake.fileURL := "blob:1" |} eq_refl).
Defined.

Lemma background_removal_touches_only_its_product_witness :
  map product_id
    (products (Intake.app
       (Intake.handle
          (Intake.BackgroundSettled Sample2.shoe_pending (Fulfilled (Some "PPPP"))
             (Sample.reply_with "QQQQ"))
          (Intake.run Sample2.upload Intake.initial))))
  = ["shoe.png-900"]
  /\ products (Intake.app
       (Intake.handle
          (Intake.BackgroundSettled Sample2.shoe_pending (Fulfilled (Some "PPPP"))
             (Sample.reply_with "QQQQ"))
          (Intake.handle (Intake.ProductRemoved "shoe.png-900")
             (Intake.run Sample2.upload Intake.initial))))
     = [].
Proof.
  destruct (background_removal_touches_only_its_product Sample2.shoe_pending
              (Fulfilled (Some "PPPP")) (Sample.reply_with "QQQQ")
              (Intake.run Sample2.upload Intake.initial))
    as (Hids & _ & _ & Hgone).
  split; [exact Hids | exact Hgone].
Defined.

Lemma background_removal_outcome_witness :
  (generateDisabled (Intake.app (Intake.run Sample2.upload Intake.initial)) = true
   /\ generateDisabled
        (Intake.app
           (Intake.handle
              (Intake.BackgroundSettled Sample2.shoe_pending (Fulfilled (Some "PPPP"))
                 (Sample.reply_with "QQQQ"))
              (Intake.run Sample2.upload Intake.initial))) = false)
  /\ (exists image,
        first_image (Sample.reply_with "QQQQ") image
        /\ nth_error
             (products
                (Intake.app
                   (Intake.handle
                      (Intake.BackgroundSettled Sample2.shoe_pending
                         (Fulfilled (Some "PPPP")) (Sample.reply_with "QQQQ"))
                      (Intake.run Sample2.upload Intake.initial)))) 0
           = Some {| product_id := "shoe.png-900";
                     original := "data:image/jpeg;base64,PPPP";
                     originalMimeType := "image/jpeg";
                     processed := Some ("data:image/png;base64," ++ image)%string;
                     isProcessing := false |})
  /\ error
       (Intake.app
          (Intake.handle
             (Intake.BackgroundSettled Sample2.shoe_pending (Fulfilled (Some "PPPP"))
                Sample.reply_without_image)
             (Intake.run Sample2.upload Intake.initial)))
     = Some "Failed to process image: shoe.png".
Proof.
  split; [split; [reflexivity|]|split].
  - destruct (background_removal_outcome Sample2.shoe_pending (Fulfilled (Some "PPPP"))
                (Sample.reply_with "QQQQ") (Intake.run Sample2.upload Intake.initial))
      as (_ & _ & Henabled).
    apply (Henabled (Intake.newProduct Sample2.shoe_pending)); [|reflexivity].
    left. reflexivity.
  - destruct (background_removal_outcome Sample2.shoe_pending (Fulfilled (Some "PPPP"))
                (Sample.reply_with "QQQQ") (Intake.run Sample2.upload Intake.initial))
      as ((image & Himage & _ & Hstored) & _).
    exists image. split; [exact Himage|].
    exact (Hstored 0%nat (Intake.newProduct Sample2.shoe_pending) eq_refl eq_refl).
  - exact (proj1 (background_removal_outcome Sample2.shoe_pending
                    (Fulfilled (Some "PPPP")) Sample.reply_without_image
                    (Intake.run Sample2.upload Intake.initial))).
Defined.

Lemma theme_follows_root_class_witness :
  ThemeProvider.theme
    (ThemeProvider.toggles 3
       (ThemeProvider.sync (ThemeProvider.mounted ["font-sans"; "dark"])))
  = ThemeProvider.light
  /\ ThemeProvider.contains "light"
       (ThemeProvider.rootClasses
          (ThemeProvider.toggles 3
             (ThemeProvider.sync (ThemeProvider.mounted ["font-sans"; "dark"]))))
     = true.
Proof.
  destruct (theme_follows_root_class ["font-sans"; "dark"] 3) as (_ & Hlight & _).
  split; [reflexivity|].
  apply (proj2 (Hlight ltac:(lia))). reflexivity.
Defined.
